(** * storms: the date-range download driver of [storms/_datasource.py]

    A shallow embedding of the class [_DataSource]: the splitting of a
    requested period into sub-periods, the sequential and the asyncio
    download loops, and the tqdm progress bar the object carries. *)

From stdpp Require Import base tactics option list numbers sorting strings gmap.

Local Open Scope Z_scope.

(** ** Timestamps

    [pd.Timestamp] is a count of nanoseconds since 1970-01-01 00:00 and
    [pd.Timedelta] a difference of two such counts.  Both are integers here;
    the bounds pandas puts on representable timestamps (years 1677 to 2262)
    are left out. *)

Module Timestamps.

Definition Timestamp : Type := Z.
Definition Timedelta : Type := Z.

Definition ns_per_minute : Z := 60 * 1000000000.
Definition ns_per_day : Z := 1440 * ns_per_minute.

(** [pd.Timedelta("1 minute")] *)
Definition one_minute : Timedelta := ns_per_minute.

(** Days since 1970-01-01 of the proleptic Gregorian date [y]-[m]-[d]. *)
Definition days_from_civil (y m d : Z) : Z :=
  let y' := if m <=? 2 then y - 1 else y in
  let era := y' / 400 in
  let yoe := y' - era * 400 in
  let mp := (m + 9) mod 12 in
  let doy := (153 * mp + 2) / 5 + d - 1 in
  let doe := yoe * 365 + yoe / 4 - yoe / 100 + doy in
  era * 146097 + doe - 719468.

(** The inverse: year, month and day of a day count. *)
Definition civil_from_days (z : Z) : Z * Z * Z :=
  let z := z + 719468 in
  let era := z / 146097 in
  let doe := z - era * 146097 in
  let yoe := (doe - doe / 1460 + doe / 36524 - doe / 146096) / 365 in
  let y := yoe + era * 400 in
  let doy := doe - (365 * yoe + yoe / 4 - yoe / 100) in
  let mp := (5 * doy + 2) / 153 in
  let d := doy - (153 * mp + 2) / 5 + 1 in
  let m := if mp <? 10 then mp + 3 else mp - 9 in
  (if m <=? 2 then y + 1 else y, m, d).

Definition year_of (t : Timestamp) : Z := (civil_from_days (t / ns_per_day)).1.1.

(** The timestamp written [y-m-d hh:mm]. *)
Definition at_time (y m d hh mm : Z) : Timestamp :=
  days_from_civil y m d * ns_per_day + (hh * 60 + mm) * ns_per_minute.

Definition date (y m d : Z) : Timestamp := at_time y m d 0 0.

End Timestamps.
Export Timestamps.

(** ** The pandas operations the driver uses *)

Module Pandas.

(** [Index.insert(loc, item)]: a new index with [item] at position [loc]. *)
Definition insert (loc : nat) (item : Timestamp) (idx : list Timestamp)
  : list Timestamp :=
  take loc idx ++ item :: drop loc idx.

(** [Index.drop_duplicates()] with its default [keep="first"]: every value
    stays at its first position and its later copies go. *)
Fixpoint drop_duplicates_from (seen idx : list Timestamp) : list Timestamp :=
  match idx with
  | [] => []
  | x :: rest =>
      if bool_decide (x ∈ seen) then drop_duplicates_from seen rest
      else x :: drop_duplicates_from (x :: seen) rest
  end.

Definition drop_duplicates (idx : list Timestamp) : list Timestamp :=
  drop_duplicates_from [] idx.

(** What the driver relies on from [pd.date_range(start, end, freq=pull_freq)]
    for a forward frequency: the anchors lie in the closed period and come in
    strictly increasing order. *)
Class DateRange (date_range : Timestamp → Timestamp → list Timestamp) : Prop := {
  date_range_bounds : ∀ s e x, x ∈ date_range s e → s ≤ x ≤ e;
  date_range_increasing : ∀ s e, StronglySorted Z.lt (date_range s e)
}.

(** [freq="YS"], the default of [pull_freq]: the first of January of each
    year, at the time of day of [start] (pandas does not normalise to
    midnight), as far as they fall in the period. *)
Definition year_start (tod : Z) (y : Z) : Timestamp :=
  days_from_civil y 1 1 * ns_per_day + tod.

Definition date_range_YS (start end_ : Timestamp) : list Timestamp :=
  let tod := start `mod` ns_per_day in
  let y0 := year_of start in
  let n := Z.to_nat (year_of end_ - y0 + 1) in
  filter (λ t, start ≤ t ∧ t ≤ end_)
         ((λ k : nat, year_start tod (y0 + Z.of_nat k)) <$> seq 0 n).

(** [freq="D"]: one anchor every 24 hours from [start] on. *)
Definition date_range_D (start end_ : Timestamp) : list Timestamp :=
  (λ k : nat, start + Z.of_nat k * ns_per_day)
    <$> seq 0 (Z.to_nat ((end_ - start) / ns_per_day + 1)).

End Pandas.
Export Pandas.

(** ** The sub-periods of a request *)

Record Interval : Type := mkInterval { iv_start : Timestamp; iv_end : Timestamp }.

Definition in_interval (t : Timestamp) (iv : Interval) : Prop :=
  iv_start iv ≤ t ∧ t ≤ iv_end iv.

Section Partition.
Variable date_range : Timestamp → Timestamp → list Timestamp.

(** The two assignments to [dRange] in [_sync_request_data_series] and
    [_async_request_data_series]. *)
Definition dRange (dStart dEnd : Timestamp) : list Timestamp :=
  let dRange := insert 0 dStart (date_range dStart dEnd) in
  drop_duplicates (insert (length dRange) dEnd dRange).

(** The arguments of the [i]-th call of the loop over
    [range(len(dRange) - 1)]. *)
Definition sub_interval (dRange : list Timestamp) (i : nat) : Interval :=
  mkInterval (dRange !!! i) (dRange !!! (i + 1)%nat - one_minute).

Definition intervals (dRange : list Timestamp) : list Interval :=
  sub_interval dRange <$> seq 0 (length dRange - 1).

Definition plan (dStart dEnd : Timestamp) : list Interval :=
  intervals (dRange dStart dEnd).
End Partition.

(** ** Exceptions and the state-and-exception monad

    A Python call changes the objects it reaches and then returns a value or
    raises; what it changed before raising stays changed. *)

Local Close Scope Z_scope.

Inductive Exn : Type :=
  | AttributeError (attr : string)
  | NotImplementedError
  | TypeError
  | FetchError (cause : nat).

Definition result (A : Type) : Type := A + Exn.

Definition M (S A : Type) : Type := S → S * result A.

Definition ret {S A} (a : A) : M S A := λ s, (s, inl a).
Definition bind {S A B} (m : M S A) (k : A → M S B) : M S B :=
  λ s, match m s with
       | (s', inl a) => k a s'
       | (s', inr e) => (s', inr e)
       end.
Definition get {S} : M S S := λ s, (s, inl s).

Notation "x ⇐ m ;; k" := (bind m (λ x, k))
  (at level 100, m at next level, right associativity).
Notation "m ;;; k" := (bind m (λ _, k))
  (at level 100, right associativity).

(** Run a computation on the first component of a pair state. *)
Definition on_fst {S T A} (m : M S A) : M (S * T) A :=
  λ st, let '(s', r) := m st.1 in ((s', st.2), r).
Definition on_snd {S T A} (m : M T A) : M (S * T) A :=
  λ st, let '(t', r) := m st.2 in ((st.1, t'), r).

(** ** The progress bar

    Of a tqdm bar the driver uses the total it is created with, the counter
    [n] that [update] advances and the description. *)

Record Bar : Type := mkBar { total : nat; n : nat; desc : string }.

Definition tqdm (total : nat) : Bar := mkBar total 0 "".
Definition update (k : nat) (b : Bar) : Bar := mkBar (total b) (n b + k) (desc b).
Definition set_description (d : string) (b : Bar) : Bar := mkBar (total b) (n b) d.

(** ** The object

    The attributes of a [_DataSource]; [bar] is an attribute that is set by
    [_init_progress] and deleted by [_close_progress], so it may be absent. *)

Record DataSource : Type := mkDataSource {
  ID : string;
  URL : string;
  progress : bool;
  bar : option Bar
}.

Definition __init__ (ID : string) : DataSource := mkDataSource ID "" true None.

Definition set_bar (b : option Bar) : M DataSource unit :=
  λ self, (mkDataSource (ID self) (URL self) (progress self) b, inl tt).
Definition hasattr_bar (self : DataSource) : bool := bool_decide (is_Some (bar self)).
(** Reading [self.bar] raises when the attribute is not there. *)
Definition self_bar : M DataSource Bar :=
  λ self, match bar self with
          | Some b => (self, inl b)
          | None => (self, inr (AttributeError "bar"))
          end.

Definition _increment_progress : M DataSource unit :=
  self ⇐ get;;
  if progress self then
    b ⇐ self_bar;;
    set_bar (Some (update 1 b))
  else ret tt.

Definition _init_progress (totalDuration : nat) : M DataSource unit :=
  self ⇐ get;;
  if progress self && negb (hasattr_bar self) then
    set_bar (Some (tqdm totalDuration))
  else ret tt.

Definition _update_progress_description (description : string) : M DataSource unit :=
  self ⇐ get;;
  if progress self then
    b ⇐ self_bar;;
    set_bar (Some (set_description description b))
  else ret tt.

Definition _close_progress : M DataSource unit :=
  self ⇐ get;;
  if progress self then
    _ ⇐ self_bar;;
    set_bar None
  else ret tt.

(** ** The download loops *)

(** The requests that went through a [requests.Session], oldest first. *)
Definition Session : Type := list Interval.

(** An asyncio task: not finished yet, or finished with a result or an
    exception. *)
Inductive Task (A : Type) : Type :=
  | Pending
  | Finished (r : result A).
Arguments Pending {A}.
Arguments Finished {A} r.

(** What the coroutine awaiting [asyncio.gather] has got so far. *)
Inductive Awaited (A : Type) : Type :=
  | Returned (a : A)
  | Raised (e : Exn)
  | Waiting.
Arguments Returned {A} a.
Arguments Raised {A} e.
Arguments Waiting {A}.

Section Driver.
Context {Payload : Type}.

(** [pd.date_range(·, ·, freq=pull_freq)] for the [pull_freq] of the call. *)
Variable date_range : Timestamp → Timestamp → list Timestamp.

(** [_sync_request_data] and [_async_request_data] are left to the
    subclasses.  They ask the remote service for one sub-period; [fetch] is
    what the service answers, the same each time it is asked. *)
Variable fetch : Interval → result Payload.

Definition _sync_request_data (start end_ : Timestamp) : M Session Payload :=
  λ session,
    (session ++ [mkInterval start end_], fetch (mkInterval start end_)).

(** The [for] loop, over the indices still to visit. *)
Fixpoint sync_loop (dRange : list Timestamp) (idx : list nat)
    (data : list Payload) : M (DataSource * Session) (list Payload) :=
  match idx with
  | [] => ret data
  | i :: idx' =>
      p ⇐ on_snd (_sync_request_data (dRange !!! i)
                    (dRange !!! (i + 1)%nat - one_minute)%Z);;
      on_fst _increment_progress;;;
      sync_loop dRange idx' (data ++ [p])
  end.

(** The state is the object together with the traffic of the session that
    the [with] block opens: run it from the empty session. *)
Definition _sync_request_data_series (start end_ : Timestamp)
  : M (DataSource * Session) (list Payload) :=
  let dRange := dRange date_range start end_ in
  on_fst (_init_progress (length dRange - 1));;;
  on_fst (_update_progress_description "Downloading");;;
  sync_loop dRange (seq 0 (length dRange - 1)) [].

(** The results of the tasks in the order of the tasks, once every task has
    finished with a result. *)
Fixpoint results (tasks : list (Task Payload)) : option (list Payload) :=
  match tasks with
  | [] => Some []
  | Finished (inl p) :: tasks' => cons p <$> results tasks'
  | _ => None
  end.

(** A done-callback runs in the event loop: what it raises is logged by the
    loop and goes nowhere. *)
Definition done_callback (cb : M DataSource unit) (self : DataSource)
  : DataSource := (cb self).1.

(** [await asyncio.gather] on the tasks, along [sched], the order in which
    the event loop sees the tasks finish before the awaiting coroutine is
    resumed.  When the loop sees a task finish, the done-callback of the
    task runs.  [gather] is called with its default
    [return_exceptions=False]: the exception of the first task seen to finish
    with one is what the awaiting coroutine gets.  The coroutine is resumed a
    pass of the loop later, not in that step, and nothing is cancelled: the
    tasks seen to finish in between are finished and counted like the others,
    and what they return or raise is dropped.  When no task raised and all
    tasks have finished, their results come back in the order of [tasks].
    An entry of [sched] that names no pending task is no event; when [sched]
    is used up with tasks still pending and no exception, the coroutine is
    still waiting. *)
Fixpoint gather (dRange : list Timestamp) (sched : list nat)
    (self : DataSource) (tasks : list (Task Payload))
  : DataSource * list (Task Payload) * Awaited (list Payload) :=
  match sched with
  | [] =>
      (self, tasks,
       match results tasks with Some out => Returned out | None => Waiting end)
  | i :: sched' =>
      match tasks !! i with
      | Some Pending =>
          let r := fetch (sub_interval dRange i) in
          let tasks' := <[i := Finished r]> tasks in
          let self' := done_callback _increment_progress self in
          let '(self'', tasks'', awaited) := gather dRange sched' self' tasks' in
          match r with
          | inr e => (self'', tasks'', Raised e)
          | inl _ => (self'', tasks'', awaited)
          end
      | _ => gather dRange sched' self tasks
      end
  end.

(** One task per sub-period, created in index order. *)
Definition create_tasks (dRange : list Timestamp) : list (Task Payload) :=
  (λ _, Pending) <$> seq 0 (length dRange - 1).

Definition _async_request_data_series (start end_ : Timestamp)
    (sched : list nat) (self : DataSource)
  : DataSource * list (Task Payload) * Awaited (list Payload) :=
  let dRange := dRange date_range start end_ in
  match _init_progress (length dRange - 1) self with
  | (self, inr e) => (self, [], Raised e)
  | (self, inl _) =>
      let tasks := create_tasks dRange in
      match _update_progress_description "Downloading" self with
      | (self, inr e) => (self, tasks, Raised e)
      | (self, inl _) => gather dRange sched self tasks
      end
  end.
End Driver.

(** ** The entry point *)

Section Entry.
Context {DataFrame Kwargs : Type}.

(** The two methods a subclass overrides; the ones of [_DataSource] itself
    follow the section. *)
Variable _sync_request_dataframe :
  Timestamp → Timestamp → bool → Kwargs → M DataSource DataFrame.
Variable _async_request_dataframe :
  Timestamp → Timestamp → bool → Kwargs → M DataSource DataFrame.


End Entry.



(** [with Session() as session]: the body runs on a session of its own,
    which is gone when the body is left. *)
Definition with_Session {A : Type} (body : M (DataSource * Session) A)
  : M DataSource A :=
  λ self, let '((self', _), r) := body (self, []) in (self', r).

(** ** Notions used in the statements *)

(** What the bar shows as done; nothing when there is no bar. *)
Definition completed (self : DataSource) : nat := from_option n 0 (bar self).

(** An object with progress reporting on has its bar. *)
Definition ready (self : DataSource) : Prop :=
  progress self = true → is_Some (bar self).

(** The object after [k] calls of [_increment_progress] that found the bar. *)
Definition advance (k : nat) (self : DataSource) : DataSource :=
  mkDataSource (ID self) (URL self) (progress self)
    (if progress self then update k <$> bar self else bar self).

(** The object when the downloads begin: the bar is there and labelled. *)
Definition started (total : nat) (self : DataSource) : DataSource :=
  ((_init_progress total;;; _update_progress_description "Downloading") self).1.

(** An order in which tasks may finish: indices of tasks, none twice. *)
Definition completion_order (N : nat) (sched : list nat) : Prop :=
  NoDup sched ∧ Forall (λ i, i < N) sched.

(** The [N] tasks over the boundaries [D] when those listed in [finished]
    have finished and the others have not. *)
Definition task_states {Payload : Type} (fetch : Interval → result Payload)
    (D : list Timestamp) (finished : list nat) (N : nat) : list (Task Payload) :=
  (λ i, if bool_decide (i ∈ finished)
        then Finished (fetch (sub_interval D i)) else Pending) <$> seq 0 N.

(** What a call leaves untouched on the object. *)
Definition same_identity (self self' : DataSource) : Prop :=
  ID self' = ID self ∧ URL self' = URL self.

(** Two remote services to run the loops against: one that answers every
    request with the sub-period asked for, one that fails on the sub-period
    that starts at [t]. *)
Definition answer_all : Interval → result Interval := inl.

Definition fail_at (t : Timestamp) : Interval → result Interval :=
  λ iv, if bool_decide (iv_start iv = t) then inr (FetchError 503) else inl iv.

(** ** The module-level helper *)

(** [flatten(t)] is [[item for sublist in t for item in sublist]]. *)
Definition flatten {A : Type} (t : list (list A)) : list A :=
  sublist ← t; item ← sublist; [item].

(** How many of the tasks have finished. *)
Fixpoint finished_count {A : Type} (tasks : list (Task A)) : nat :=
  match tasks with
  | [] => 0
  | Finished _ :: tasks' => S (finished_count tasks')
  | Pending :: tasks' => finished_count tasks'
  end.

(** Every task is pending or holds the answer to its own sub-period. *)
Definition filed {Payload : Type} (fetch : Interval → result Payload)
    (D : list Timestamp) (tasks : list (Task Payload)) : Prop :=
  ∀ (j : nat) t, tasks !! j = Some t →
    t = Pending ∨ t = Finished (fetch (sub_interval D j)).

(** * Properties *)

(** ** The calendar behind [freq="YS"] *)

Local Open Scope Z_scope.

Lemma ns_per_day_pos : 0 < ns_per_day.
Proof. reflexivity. Qed.

Lemma days_from_civil_next_year y :
  days_from_civil y 1 1 < days_from_civil (y + 1) 1 1.
Proof.
  unfold days_from_civil. cbn [Z.leb Z.compare Pos.compare Pos.compare_cont].
  replace (y + 1 - 1) with (y - 1 + 1) by lia.
  generalize (y - 1). intros z.
  Z.div_mod_to_equations. lia.
Qed.

Lemma year_start_mono tod y1 y2 :
  y1 < y2 → year_start tod y1 < year_start tod y2.
Proof.
  intros Hlt. unfold year_start.
  assert (days_from_civil y1 1 1 < days_from_civil y2 1 1) as Hd.
  { replace y2 with (y1 + Z.of_nat (S (Z.to_nat (y2 - y1 - 1)))) by lia.
    generalize (Z.to_nat (y2 - y1 - 1)). intros k.
    induction k as [|k IH].
    - apply days_from_civil_next_year.
    - etrans; [exact IH|].
      replace (y1 + Z.of_nat (S (S k))) with (y1 + Z.of_nat (S k) + 1) by lia.
      apply days_from_civil_next_year. }
  pose proof ns_per_day_pos. nia.
Qed.

(** ** Strictly increasing lists *)

Lemma StronglySorted_fmap_seq (f : nat → Z) j k :
  (∀ a b : nat, (a < b)%nat → f a < f b) →
  StronglySorted Z.lt (f <$> seq j k).
Proof.
  intros Hf. revert j. induction k as [|k IH]; intros j; cbn.
  - constructor.
  - constructor; [apply IH|].
    apply Forall_fmap, Forall_forall. intros b Hb.
    apply elem_of_seq in Hb. apply Hf. lia.
Qed.

Lemma StronglySorted_filter (P : Z → Prop) `{∀ x, Decision (P x)} l :
  StronglySorted Z.lt l → StronglySorted Z.lt (filter P l).
Proof.
  induction 1 as [|x l Hs IH Hx]; [constructor|].
  rewrite filter_cons. destruct (decide (P x)); [|done].
  constructor; [done|].
  apply Forall_forall. intros y Hy. apply list_elem_of_filter in Hy as [_ Hy].
  rewrite Forall_forall in Hx. by apply Hx.
Qed.

Lemma StronglySorted_sublist {A} (R : relation A) l k :
  l `sublist_of` k → StronglySorted R k → StronglySorted R l.
Proof.
  induction 1 as [|x l k Hsub IH|x l k Hsub IH]; intros Hk.
  - constructor.
  - apply StronglySorted_cons in Hk as [Hx Hk].
    constructor; [by apply IH|].
    rewrite Forall_forall in Hx. apply Forall_forall. intros y Hy.
    apply Hx. by eapply elem_of_sublist.
  - apply StronglySorted_cons in Hk as [_ Hk]. by apply IH.
Qed.

Lemma StronglySorted_le_NoDup_lt l :
  StronglySorted Z.le l → NoDup l → StronglySorted Z.lt l.
Proof.
  induction 1 as [|x l Hs IH Hx]; intros Hnd; [constructor|].
  apply NoDup_cons in Hnd as [Hnotin Hnd].
  constructor; [by apply IH|].
  rewrite Forall_forall in Hx. apply Forall_forall. intros y Hy.
  specialize (Hx y Hy). assert (x ≠ y) by (intros ->; done). lia.
Qed.

Lemma StronglySorted_lt_last l x :
  StronglySorted Z.lt l → x ∈ l → Forall (λ y, y ≤ x) l → last l = Some x.
Proof.
  induction 1 as [|y l Hs IH Hy]; intros Hin Hle; [by apply elem_of_nil in Hin|].
  apply Forall_cons in Hle as [Hyx Hle].
  destruct l as [|z l].
  - apply list_elem_of_singleton in Hin. by subst.
  - rewrite last_cons_cons. apply IH; [|done].
    apply elem_of_cons in Hin as [->|Hin]; [|done].
    apply Forall_cons in Hy as [Hyz _]. apply Forall_cons in Hle as [Hzx _]. lia.
Qed.

(** ** The two frequencies are date ranges *)

#[global] Instance date_range_YS_DateRange : DateRange date_range_YS.
Proof.
  split.
  - intros s e x Hx. unfold date_range_YS in Hx.
    by apply list_elem_of_filter in Hx as [Hx _].
  - intros s e. unfold date_range_YS.
    apply StronglySorted_filter.
    apply StronglySorted_fmap_seq. intros a b Hab.
    apply year_start_mono. lia.
Qed.

#[global] Instance date_range_D_DateRange : DateRange date_range_D.
Proof.
  pose proof ns_per_day_pos as Hpos.
  split.
  - intros s e x Hx. unfold date_range_D in Hx.
    apply list_elem_of_fmap in Hx as (k & -> & Hk).
    apply elem_of_seq in Hk.
    destruct (decide (e < s)) as [Hlt|Hge].
    + assert ((e - s) `div` ns_per_day < 0) by (apply Z.div_lt_upper_bound; lia).
      lia.
    + assert (ns_per_day * ((e - s) `div` ns_per_day) ≤ e - s)
        by (apply Z.mul_div_le; lia).
      nia.
  - intros s e. unfold date_range_D.
    apply StronglySorted_fmap_seq. intros a b Hab. nia.
Qed.

Example date_range_YS_from_new_year :
  date_range_YS (date 2020 1 1) (date 2022 6 15) =
    [date 2020 1 1; date 2021 1 1; date 2022 1 1].
Proof. vm_compute. reflexivity. Qed.

Example date_range_YS_keeps_time_of_day :
  date_range_YS (at_time 2020 3 15 10 30) (date 2022 6 15) =
    [at_time 2021 1 1 10 30; at_time 2022 1 1 10 30].
Proof. vm_compute. reflexivity. Qed.

Example date_range_YS_backwards :
  date_range_YS (date 2022 6 15) (date 2020 1 1) = [].
Proof. vm_compute. reflexivity. Qed.

Example date_range_D_three_days :
  date_range_D (date 2020 2 28) (at_time 2020 3 1 12 0) =
    [date 2020 2 28; date 2020 2 29; date 2020 3 1].
Proof. vm_compute. reflexivity. Qed.

(** ** [drop_duplicates] *)

Example drop_duplicates_keeps_first :
  drop_duplicates [3; 1; 3; 2; 1]%Z = [3; 1; 2]%Z.
Proof. reflexivity. Qed.


Lemma elem_of_drop_duplicates_from seen l x :
  x ∈ drop_duplicates_from seen l ↔ x ∈ l ∧ x ∉ seen.
Proof.
  revert seen. induction l as [|y l IH]; intros seen; cbn.
  - rewrite elem_of_nil. tauto.
  - case_bool_decide as Hy.
    + rewrite IH, elem_of_cons. split; [tauto|].
      intros [[->|?] ?]; tauto.
    + rewrite !elem_of_cons, IH, elem_of_cons.
      destruct (decide (x = y)) as [->|]; tauto.
Qed.

Lemma drop_duplicates_from_sublist seen l :
  drop_duplicates_from seen l `sublist_of` l.
Proof.
  revert seen. induction l as [|y l IH]; intros seen; cbn.
  - constructor.
  - case_bool_decide; [apply sublist_cons|apply sublist_skip]; apply IH.
Qed.

Lemma drop_duplicates_from_NoDup seen l : NoDup (drop_duplicates_from seen l).
Proof.
  revert seen. induction l as [|y l IH]; intros seen; cbn.
  - constructor.
  - case_bool_decide; [apply IH|].
    apply NoDup_cons. split; [|apply IH].
    rewrite elem_of_drop_duplicates_from, elem_of_cons. tauto.
Qed.

Lemma elem_of_drop_duplicates l x : x ∈ drop_duplicates l ↔ x ∈ l.
Proof.
  unfold drop_duplicates. rewrite elem_of_drop_duplicates_from, elem_of_nil. tauto.
Qed.

(** ** The boundaries [dRange] *)

Section PartitionFacts.
Context (date_range : Timestamp → Timestamp → list Timestamp).

Lemma dRange_unfold s e :
  dRange date_range s e = drop_duplicates (s :: date_range s e ++ [e]).
Proof.
  unfold dRange, insert. cbn [take drop app].
  by rewrite firstn_all, drop_all.
Qed.

Lemma elem_of_dRange s e x :
  x ∈ dRange date_range s e ↔ x = s ∨ x ∈ date_range s e ∨ x = e.
Proof.
  rewrite dRange_unfold, elem_of_drop_duplicates, elem_of_cons, elem_of_app,
    list_elem_of_singleton. tauto.
Qed.

Lemma dRange_head s e :
  ∃ rest, dRange date_range s e = s :: rest.
Proof.
  rewrite dRange_unfold. unfold drop_duplicates. cbn.
  rewrite bool_decide_eq_false_2 by apply not_elem_of_nil. eauto.
Qed.

Lemma dRange_NoDup s e : NoDup (dRange date_range s e).
Proof. rewrite dRange_unfold. apply drop_duplicates_from_NoDup. Qed.

Context `{!DateRange date_range}.

Lemma date_range_empty s e : e < s → date_range s e = [].
Proof.
  intros Hlt. destruct (date_range s e) as [|x l] eqn:Heq; [done|].
  assert (s ≤ x ≤ e); [|lia].
  apply (date_range_bounds s e). rewrite Heq. left.
Qed.

(** A period given backwards has no anchors: its boundaries are its two
    ends, in the order given. *)
Lemma dRange_backwards s e : e < s → dRange date_range s e = [s; e].
Proof.
  intros Hlt. rewrite dRange_unfold, date_range_empty by done.
  unfold drop_duplicates. cbn.
  rewrite bool_decide_eq_false_2 by apply not_elem_of_nil.
  rewrite bool_decide_eq_false_2; [done|].
  rewrite list_elem_of_singleton. lia.
Qed.

Lemma dRange_between s e x : s ≤ e → x ∈ dRange date_range s e → s ≤ x ≤ e.
Proof.
  intros Hle [->|[Hx| ->]]%elem_of_dRange; [lia| |lia].
  by apply (date_range_bounds s e).
Qed.

Lemma dRange_increasing s e :
  s ≤ e → StronglySorted Z.lt (dRange date_range s e).
Proof.
  intros Hle. apply StronglySorted_le_NoDup_lt; [|apply dRange_NoDup].
  rewrite dRange_unfold.
  eapply StronglySorted_sublist; [apply drop_duplicates_from_sublist|].
  constructor.
  - apply StronglySorted_app. split_and!.
    + intros x y Hx ->%list_elem_of_singleton.
      apply (date_range_bounds s e) in Hx. lia.
    + pose proof (date_range_increasing s e) as Hs.
      clear -Hs. induction Hs as [|x l Hs IH Hx]; constructor; [done|].
      eapply Forall_impl; [done|]. cbn. lia.
    + repeat constructor.
  - apply Forall_forall. intros x [Hx| ->%list_elem_of_singleton]%elem_of_app; [|done].
    apply (date_range_bounds s e) in Hx. lia.
Qed.

Lemma dRange_last s e : s ≤ e → last (dRange date_range s e) = Some e.
Proof.
  intros Hle. apply StronglySorted_lt_last.
  - by apply dRange_increasing.
  - apply elem_of_dRange. auto.
  - apply Forall_forall. intros x Hx. by apply dRange_between in Hx as [_ ?].
Qed.

Lemma dRange_same s : dRange date_range s s = [s].
Proof.
  destruct (dRange_head s s) as [rest Heq]. rewrite Heq. f_equal.
  destruct rest as [|x rest]; [done|]. exfalso.
  pose proof (dRange_NoDup s s) as Hnd. rewrite Heq in Hnd.
  apply NoDup_cons in Hnd as [Hnotin _]. apply Hnotin.
  assert (x ∈ dRange date_range s s) as Hx by (rewrite Heq; right; left).
  apply dRange_between in Hx; [|done]. replace x with s by lia. left.
Qed.

Lemma dRange_two s e : s < e → 2 ≤ Z.of_nat (length (dRange date_range s e)).
Proof.
  intros Hlt. destruct (dRange_head s e) as [rest Heq].
  pose proof (dRange_last s e ltac:(lia)) as Hlast. rewrite Heq in *.
  destruct rest as [|x rest]; cbn in *; [|lia].
  injection Hlast. lia.
Qed.
End PartitionFacts.

(** ** The sub-periods *)

Lemma StronglySorted_lt_lookup l (i j : nat) x y :
  StronglySorted Z.lt l → l !! i = Some x → l !! j = Some y → (i < j)%nat → x < y.
Proof.
  intros Hs. revert i j. induction Hs as [|z l Hs IH Hz]; intros i j Hi Hj Hij.
  - by rewrite lookup_nil in Hi.
  - destruct j as [|j]; [lia|]. cbn in Hj. destruct i as [|i]; cbn in Hi.
    + injection Hi as ->. rewrite Forall_forall in Hz.
      apply Hz. by eapply list_elem_of_lookup_2.
    + eapply IH; [done..|lia].
Qed.

Lemma intervals_lookup D (i : nat) iv :
  intervals D !! i = Some iv ↔ (i + 1 < length D)%nat ∧ iv = sub_interval D i.
Proof.
  unfold intervals. rewrite list_lookup_fmap, fmap_Some. split.
  - intros (j & [-> Hj]%lookup_seq & ->). split; [lia|done].
  - intros [Hi ->]. exists i. split; [|done]. apply lookup_seq. lia.
Qed.

Lemma intervals_length D : length (intervals D) = (length D - 1)%nat.
Proof. unfold intervals. by rewrite length_fmap, length_seq. Qed.

Lemma sub_interval_lookup D (i : nat) b b' :
  D !! i = Some b → D !! (i + 1)%nat = Some b' →
  sub_interval D i = mkInterval b (b' - one_minute).
Proof.
  intros Hb Hb'. unfold sub_interval.
  by rewrite (list_lookup_total_correct _ _ _ Hb),
    (list_lookup_total_correct _ _ _ Hb').
Qed.

Lemma intervals_lookup_boundaries D (i : nat) iv :
  intervals D !! i = Some iv →
  ∃ b b', D !! i = Some b ∧ D !! (i + 1)%nat = Some b' ∧
          iv = mkInterval b (b' - one_minute).
Proof.
  intros [Hi ->]%intervals_lookup.
  destruct (lookup_lt_is_Some_2 D i) as [b Hb]; [lia|].
  destruct (lookup_lt_is_Some_2 D (i + 1)) as [b' Hb']; [lia|].
  exists b, b'. split_and!; [done..|]. by apply sub_interval_lookup.
Qed.

Lemma elem_of_intervals D iv :
  iv ∈ intervals D →
  ∃ (j : nat) b b', D !! j = Some b ∧ D !! (j + 1)%nat = Some b' ∧
                    iv = mkInterval b (b' - one_minute).
Proof.
  intros [j Hj]%list_elem_of_lookup_1.
  exists j. by apply intervals_lookup_boundaries.
Qed.

Section PlanFacts.
Context (date_range : Timestamp → Timestamp → list Timestamp).
Context `{!DateRange date_range}.

Lemma plan_backwards s e :
  e < s → plan date_range s e = [mkInterval s (e - one_minute)].
Proof. intros Hlt. unfold plan. by rewrite dRange_backwards. Qed.

Lemma plan_same s : plan date_range s s = [].
Proof. unfold plan. by rewrite dRange_same. Qed.

Lemma plan_length_two_forward s e :
  (2 ≤ length (plan date_range s e))%nat → s < e.
Proof.
  intros Hlen. destruct (Z.lt_total s e) as [?|[->|?]]; [done|..].
  - rewrite plan_same in Hlen. cbn in Hlen. lia.
  - rewrite plan_backwards in Hlen by done. cbn in Hlen. lia.
Qed.

Lemma plan_last_end s e iv :
  last (plan date_range s e) = Some iv → iv_end iv = e - one_minute.
Proof.
  destruct (decide (e < s)) as [Hlt|Hle].
  { rewrite plan_backwards by done. cbn. by intros [= <-]. }
  unfold plan. rewrite last_lookup, intervals_length.
  intros (b & b' & _ & Hb' & ->)%intervals_lookup_boundaries. cbn.
  pose proof (dRange_last date_range s e ltac:(lia)) as Hlast.
  rewrite last_lookup in Hlast.
  destruct (dRange_head date_range s e) as [rest Heq].
  rewrite Heq in *. cbn [length] in *.
  destruct rest as [|x rest]; [by rewrite lookup_ge_None_2 in Hb' by (cbn; lia)|].
  cbn [length Nat.pred] in *.
  replace (Nat.pred (S (S (length rest)) - 1) + 1)%nat with (S (length rest))
    in Hb' by lia.
  assert (Some b' = Some e) as [= ->]; [|done].
  etrans; [symmetry; exact Hb'|exact Hlast].
Qed.

Lemma plan_head_start s e iv :
  head (plan date_range s e) = Some iv → iv_start iv = s.
Proof.
  rewrite head_lookup. unfold plan.
  intros (b & b' & Hb & _ & ->)%intervals_lookup_boundaries. cbn.
  destruct (dRange_head date_range s e) as [rest Heq]. rewrite Heq in Hb.
  cbn in Hb. by injection Hb as <-.
Qed.

Lemma dRange_single_bucket s e :
  s < e → (∀ x, x ∈ date_range s e → x = s ∨ x = e) →
  dRange date_range s e = [s; e].
Proof.
  intros Hlt Hbucket.
  assert (∀ x, x ∈ dRange date_range s e → x = s ∨ x = e) as Hin.
  { intros x [->|[Hx| ->]]%elem_of_dRange; auto. }
  pose proof (dRange_NoDup date_range s e) as Hnd.
  pose proof (dRange_two date_range s e Hlt) as Hlen.
  destruct (dRange_head date_range s e) as [rest Heq]. rewrite Heq in *.
  apply NoDup_cons in Hnd as [Hs Hnd].
  destruct rest as [|x rest]; [cbn in Hlen; lia|].
  destruct (Hin x) as [->| ->]; [right; left|exfalso; apply Hs; left|].
  apply NoDup_cons in Hnd as [He _].
  destruct rest as [|y rest]; [done|]. exfalso.
  destruct (Hin y) as [->| ->]; [do 2 right; left|..].
  - apply Hs. right; left.
  - apply He. left.
Qed.
End PlanFacts.

(** ** The plan of a request *)

(** C1, as the code has it: for every request with [start <= end] the end of
    every sub-period, the last one included, is its closing boundary moved
    back by one minute, so the last sub-period ends at [end] minus one minute;
    the first sub-period starts at [start].  For 2020-01-01 to 2022-06-15 at
    the yearly frequency the plan is (2020-01-01, 2020-12-31 23:59),
    (2021-01-01, 2021-12-31 23:59), (2022-01-01, 2022-06-14 23:59). *)
Theorem plan_every_end_one_minute_back
    (date_range : Timestamp → Timestamp → list Timestamp)
    `{!DateRange date_range} (s e : Timestamp) :
  s ≤ e →
  (∀ (i : nat) iv, plan date_range s e !! i = Some iv →
     ∃ b b', dRange date_range s e !! i = Some b ∧
             dRange date_range s e !! (i + 1)%nat = Some b' ∧
             iv = mkInterval b (b' - one_minute)) ∧
  (∀ iv, last (plan date_range s e) = Some iv → iv_end iv = e - one_minute) ∧
  (∀ iv, head (plan date_range s e) = Some iv → iv_start iv = s) ∧
  plan date_range_YS (date 2020 1 1) (date 2022 6 15) =
    [ mkInterval (date 2020 1 1) (at_time 2020 12 31 23 59);
      mkInterval (date 2021 1 1) (at_time 2021 12 31 23 59);
      mkInterval (date 2022 1 1) (at_time 2022 6 14 23 59) ].
Proof.
  intros Hle. split_and!.
  - intros i iv Hiv. by apply intervals_lookup_boundaries.
  - intros iv. by apply plan_last_end.
  - intros iv. by apply plan_head_start.
  - vm_compute. reflexivity.
Qed.

Lemma plan_every_end_one_minute_back_witness :
  date 2020 1 1 ≤ date 2022 6 15 ∧
  last (plan date_range_YS (date 2020 1 1) (date 2022 6 15)) =
    Some (mkInterval (date 2022 1 1) (at_time 2022 6 14 23 59)) ∧
  iv_end (mkInterval (date 2022 1 1) (at_time 2022 6 14 23 59)) =
    date 2022 6 15 - one_minute.
Proof.
  split; [by vm_compute|].
  assert (last (plan date_range_YS (date 2020 1 1) (date 2022 6 15)) =
          Some (mkInterval (date 2022 1 1) (at_time 2022 6 14 23 59))) as Hlast
    by (vm_compute; reflexivity).
  split; [exact Hlast|].
  apply (plan_every_end_one_minute_back date_range_YS
           (date 2020 1 1) (date 2022 6 15)); [by vm_compute|exact Hlast].
Defined.

(** The plan the claim C1 gives for its scenario is not the plan of the
    code: the last sub-period of the code ends a minute before 2022-06-15. *)
Lemma plan_last_end_not_requested_end :
  plan date_range_YS (date 2020 1 1) (date 2022 6 15) ≠
    [ mkInterval (date 2020 1 1) (at_time 2020 12 31 23 59);
      mkInterval (date 2021 1 1) (at_time 2021 12 31 23 59);
      mkInterval (date 2022 1 1) (date 2022 6 15) ].
Proof. vm_compute. discriminate. Qed.

(** C5, as the code has it: for every [start < end] and every frequency the
    plan has at least one sub-period; when no anchor of the frequency lies
    strictly inside the period, the plan is the single sub-period from
    [start] to [end] minus one minute. *)
Theorem plan_nonempty_single_bucket
    (date_range : Timestamp → Timestamp → list Timestamp)
    `{!DateRange date_range} (s e : Timestamp) :
  s < e →
  (1 ≤ length (plan date_range s e))%nat ∧
  ((∀ x, x ∈ date_range s e → x = s ∨ x = e) →
   plan date_range s e = [mkInterval s (e - one_minute)]).
Proof.
  intros Hlt. split.
  - unfold plan. rewrite intervals_length.
    pose proof (dRange_two date_range s e Hlt). lia.
  - intros Hbucket. unfold plan. by rewrite dRange_single_bucket.
Qed.

Lemma plan_nonempty_single_bucket_witness :
  date 2020 3 1 < date 2020 6 15 ∧
  (1 ≤ length (plan date_range_YS (date 2020 3 1) (date 2020 6 15)))%nat.
Proof.
  split; [by vm_compute|].
  apply (plan_nonempty_single_bucket date_range_YS). by vm_compute.
Defined.

(** Against C5 as stated: a request with [start = end] has the empty plan,
    and a request inside one year has a plan that stops a minute short of
    [end]. *)
Lemma plan_empty_or_short :
  date 2020 1 1 ≤ date 2020 1 1 ∧
  ¬ (1 ≤ length (plan date_range_YS (date 2020 1 1) (date 2020 1 1)))%nat ∧
  date_range_YS (date 2020 3 1) (date 2020 6 15) = [] ∧
  plan date_range_YS (date 2020 3 1) (date 2020 6 15) ≠
    [mkInterval (date 2020 3 1) (date 2020 6 15)].
Proof.
  split_and!.
  - by vm_compute.
  - vm_compute. lia.
  - vm_compute. reflexivity.
  - vm_compute. discriminate.
Qed.

(** C9: in a plan of two or more sub-periods, a sub-period ends one minute
    before the boundary at which the next one starts, and a timestamp
    strictly inside that minute lies in no sub-period of the plan. *)
Theorem plan_gap_in_no_sub_interval
    (date_range : Timestamp → Timestamp → list Timestamp)
    `{!DateRange date_range} (s e : Timestamp) (i : nat) (a b : Interval) :
  (2 ≤ length (plan date_range s e))%nat →
  plan date_range s e !! i = Some a →
  plan date_range s e !! (i + 1)%nat = Some b →
  (∃ boundary, dRange date_range s e !! (i + 1)%nat = Some boundary ∧
               iv_end a = boundary - one_minute ∧ iv_start b = boundary) ∧
  (∀ t iv, iv_end a < t < iv_start b → iv ∈ plan date_range s e →
           ¬ in_interval t iv).
Proof.
  intros Hlen Ha Hb.
  apply plan_length_two_forward in Hlen; [|done].
  pose proof (dRange_increasing date_range s e ltac:(lia)) as Hsorted.
  unfold plan in *.
  apply intervals_lookup_boundaries in Ha as (a1 & a2 & Ha1 & Ha2 & ->).
  apply intervals_lookup_boundaries in Hb as (b1 & b2 & Hb1 & Hb2 & ->).
  assert (b1 = a2) as -> by (apply (inj Some); etrans; [symmetry; exact Hb1|exact Ha2]).
  cbn [iv_start iv_end]. split; [by exists a2|].
  intros t iv Ht (j & c1 & c2 & Hc1 & Hc2 & ->)%elem_of_intervals.
  unfold in_interval. cbn [iv_start iv_end]. intros [Hlo Hhi].
  destruct (decide (j ≤ i)%nat) as [Hji|Hji].
  - assert (c2 ≤ a2); [|lia].
    destruct (decide (j = i)) as [->|Hne].
    + assert (Some c2 = Some a2) as [= ->]; [|done].
      etrans; [symmetry; exact Hc2|exact Ha2].
    + assert (c2 < a2); [|lia].
      eapply (StronglySorted_lt_lookup _ (j + 1) (i + 1)); [done..|lia].
  - assert (a2 ≤ c1); [|lia].
    destruct (decide (j = i + 1)%nat) as [->|Hne].
    + assert (Some c1 = Some a2) as [= ->]; [|done].
      etrans; [symmetry; exact Hc1|exact Ha2].
    + assert (a2 < c1); [|lia].
      eapply (StronglySorted_lt_lookup _ (i + 1) j); [done..|lia].
Qed.

Lemma plan_gap_in_no_sub_interval_witness :
  (2 ≤ length (plan date_range_YS (date 2020 1 1) (date 2022 6 15)))%nat ∧
  ¬ in_interval (at_time 2020 12 31 23 59 + 1)
      (mkInterval (date 2020 1 1) (at_time 2020 12 31 23 59)) ∧
  ¬ in_interval (at_time 2020 12 31 23 59 + 1)
      (mkInterval (date 2021 1 1) (at_time 2021 12 31 23 59)).
Proof.
  pose proof (plan_gap_in_no_sub_interval date_range_YS
    (date 2020 1 1) (date 2022 6 15) 0
    (mkInterval (date 2020 1 1) (at_time 2020 12 31 23 59))
    (mkInterval (date 2021 1 1) (at_time 2021 12 31 23 59))) as H.
  destruct H as [_ H]; [vm_compute; lia|vm_compute; reflexivity..|].
  split; [vm_compute; lia|].
  split; apply H; try (by vm_compute).
  - vm_compute. left.
  - vm_compute. right. left.
Defined.

(** ** The progress bar *)

Local Close Scope Z_scope.

Lemma _init_progress_fresh N self :
  progress self = true → bar self = None →
  _init_progress N self =
    (mkDataSource (ID self) (URL self) true (Some (mkBar N 0 "")), inl tt).
Proof. destruct self as [id url p b]. cbn. by intros -> ->. Qed.

Lemma _init_progress_kept N self :
  is_Some (bar self) ∨ progress self = false →
  _init_progress N self = (self, inl tt).
Proof.
  destruct self as [id url p b]. cbn. intros [[b' ->]| ->]; [|done].
  by destruct p.
Qed.


Lemma _update_progress_description_ready d self :
  ready self →
  _update_progress_description d self =
    (mkDataSource (ID self) (URL self) (progress self)
       (if progress self then set_description d <$> bar self else bar self),
     inl tt).
Proof.
  destruct self as [id url [] b]; unfold ready; cbn; [|done].
  intros [b' ->]; done.
Qed.

Lemma _increment_progress_ready self :
  ready self → _increment_progress self = (advance 1 self, inl tt).
Proof.
  destruct self as [id url [] b]; unfold ready; cbn; [|done].
  intros [b' ->]; done.
Qed.

Lemma advance_ready k self : ready self → ready (advance k self).
Proof.
  destruct self as [id url [] b]; unfold ready; cbn; [|done].
  intros [b' ->]; eauto.
Qed.

Lemma advance_0 self : advance 0 self = self.
Proof.
  destruct self as [id url [] [[t c d]|]]; unfold advance, update; cbn; try done.
  by rewrite Nat.add_0_r.
Qed.

Lemma advance_advance j k self : advance j (advance k self) = advance (k + j) self.
Proof.
  destruct self as [id url [] [[t c d]|]]; unfold advance, update; cbn; try done.
  by rewrite Nat.add_assoc.
Qed.

Lemma completed_advance k self :
  progress self = true → is_Some (bar self) →
  completed (advance k self) = completed self + k.
Proof. destruct self as [id url p b]. cbn. intros -> [b' ->]. done. Qed.

Lemma started_spec N self :
  (_init_progress N;;; _update_progress_description "Downloading") self =
    (started N self, inl tt) ∧
  ready (started N self) ∧ same_identity self (started N self) ∧
  progress (started N self) = progress self.
Proof.
  unfold started, same_identity.
  destruct self as [id url [] [b|]]; cbn; split_and!; try done;
    intros ?; cbn in *; by eauto.
Qed.

Lemma started_fresh N self :
  progress self = true → bar self = None →
  started N self =
    mkDataSource (ID self) (URL self) true (Some (mkBar N 0 "Downloading")).
Proof. destruct self as [id url p b]. cbn. by intros -> ->. Qed.

Lemma started_kept N self b :
  progress self = true → bar self = Some b →
  started N self =
    mkDataSource (ID self) (URL self) true (Some (set_description "Downloading" b)).
Proof. destruct self as [id url p b']. cbn. by intros -> ->. Qed.

Lemma started_off N self : progress self = false → started N self = self.
Proof. destruct self as [id url p b']. cbn. by intros ->. Qed.

(** ** The sequential loop *)

Section SyncFacts.
Context {Payload : Type} (fetch : Interval → result Payload).

Lemma sync_loop_cons D i idx data self ses :
  ready self →
  sync_loop fetch D (i :: idx) data (self, ses) =
    match fetch (sub_interval D i) with
    | inl p =>
        sync_loop fetch D idx (data ++ [p])
          (advance 1 self, ses ++ [sub_interval D i])
    | inr err => ((self, ses ++ [sub_interval D i]), inr err)
    end.
Proof.
  intros Hready. cbn [sync_loop]. unfold bind at 1.
  unfold on_snd, _sync_request_data. cbn [fst snd].
  change (mkInterval (D !!! i) (D !!! (i + 1)%nat - one_minute)%Z)
    with (sub_interval D i).
  destruct (fetch (sub_interval D i)) as [p|err]; [|done].
  unfold bind at 1. unfold on_fst. cbn [fst snd].
  by rewrite _increment_progress_ready.
Qed.

Lemma sync_loop_all_ok D idx ps data self ses :
  ready self →
  Forall2 (λ i p, fetch (sub_interval D i) = inl p) idx ps →
  sync_loop fetch D idx data (self, ses) =
    ((advance (length idx) self, ses ++ (sub_interval D <$> idx)),
     inl (data ++ ps)).
Proof.
  intros Hready Hall. revert data self ses Hready.
  induction Hall as [|i p idx ps Hi Hall IH]; intros data self ses Hready.
  - cbn. by rewrite advance_0, !app_nil_r.
  - rewrite sync_loop_cons, Hi by done.
    rewrite IH by by apply advance_ready.
    rewrite advance_advance. cbn [length fmap list_fmap].
    by rewrite <-!app_assoc.
Qed.

Lemma sync_loop_first_failure D pre k post ps err data self ses :
  ready self →
  Forall2 (λ i p, fetch (sub_interval D i) = inl p) pre ps →
  fetch (sub_interval D k) = inr err →
  sync_loop fetch D (pre ++ k :: post) data (self, ses) =
    ((advance (length pre) self, ses ++ (sub_interval D <$> pre ++ [k])),
     inr err).
Proof.
  intros Hready Hall Hk. revert data self ses Hready.
  induction Hall as [|i p idx ps Hi Hall IH]; intros data self ses Hready.
  - cbn [app]. rewrite sync_loop_cons, Hk by done. by rewrite advance_0.
  - rewrite <-app_comm_cons, sync_loop_cons, Hi by done.
    rewrite IH by by apply advance_ready.
    rewrite advance_advance. cbn [length fmap list_fmap app].
    by rewrite <-!app_assoc.
Qed.

(** The object after the loop differs from the object before it in the bar
    alone, however the requests went. *)
Lemma sync_loop_frame D idx data self ses :
  ready self →
  ∃ k, (sync_loop fetch D idx data (self, ses)).1.1 = advance k self.
Proof.
  revert data self ses. induction idx as [|i idx IH]; intros data self ses Hready.
  - exists 0. cbn. by rewrite advance_0.
  - rewrite sync_loop_cons by done.
    destruct (fetch (sub_interval D i)) as [p|err].
    + destruct (IH (data ++ [p]) (advance 1 self) (ses ++ [sub_interval D i]))
        as [k Hk]; [by apply advance_ready|].
      exists (1 + k). etrans; [exact Hk|apply advance_advance].
    + exists 0. cbn. by rewrite advance_0.
Qed.

Context (date_range : Timestamp → Timestamp → list Timestamp).

Lemma _sync_request_data_series_unfold s e self ses :
  _sync_request_data_series date_range fetch s e (self, ses) =
    sync_loop fetch (dRange date_range s e)
      (seq 0 (length (plan date_range s e))) []
      (started (length (plan date_range s e)) self, ses).
Proof.
  unfold _sync_request_data_series, plan. rewrite intervals_length.
  generalize (length (dRange date_range s e) - 1). intros N.
  destruct self as [id url [] [b|]]; reflexivity.
Qed.
End SyncFacts.

(** C4, as the code has it: a request with [start > end] raises no range
    error.  Its plan is the one sub-period from [start] to [end] minus one
    minute; exactly one request is sent, for that sub-period, and the call
    returns the payload of that request or raises what that request raised. *)
Theorem backwards_request_fetches_once {Payload : Type}
    (date_range : Timestamp → Timestamp → list Timestamp)
    `{!DateRange date_range} (fetch : Interval → result Payload)
    (s e : Timestamp) (self : DataSource) :
  (e < s)%Z →
  plan date_range s e = [mkInterval s (e - one_minute)%Z] ∧
  _sync_request_data_series date_range fetch s e (self, []) =
    match fetch (mkInterval s (e - one_minute)%Z) with
    | inl p =>
        ((advance 1 (started 1 self), [mkInterval s (e - one_minute)%Z]),
         inl [p])
    | inr err =>
        ((started 1 self, [mkInterval s (e - one_minute)%Z]), inr err)
    end.
Proof.
  intros Hlt. split; [by apply plan_backwards|].
  rewrite _sync_request_data_series_unfold, plan_backwards by done.
  rewrite dRange_backwards by done. cbn [length seq].
  rewrite sync_loop_cons by apply started_spec.
  change (sub_interval [s; e] 0) with (mkInterval s (e - one_minute)%Z).
  by destruct (fetch _).
Qed.

Lemma backwards_request_fetches_once_witness :
  (date 2020 1 1 < date 2022 6 15)%Z ∧
  _sync_request_data_series date_range_YS answer_all
      (date 2022 6 15) (date 2020 1 1) (__init__ "GHCND:USW00014739", []) =
    ((mkDataSource "GHCND:USW00014739" "" true (Some (mkBar 1 1 "Downloading")),
      [mkInterval (date 2022 6 15) (at_time 2019 12 31 23 59)]),
     inl [mkInterval (date 2022 6 15) (at_time 2019 12 31 23 59)]).
Proof.
  split; [by vm_compute|].
  etrans.
  - apply (backwards_request_fetches_once date_range_YS answer_all
             (date 2022 6 15) (date 2020 1 1)). by vm_compute.
  - vm_compute. reflexivity.
Defined.

(** Against C4 as stated: with [start] after [end] the call does not fail
    and does use the network. *)
Lemma backwards_request_returns :
  (date 2020 1 1 < date 2022 6 15)%Z ∧
  (_sync_request_data_series date_range_YS answer_all
     (date 2022 6 15) (date 2020 1 1) (__init__ "GHCND:USW00014739", [])).2 =
    inl [mkInterval (date 2022 6 15) (at_time 2019 12 31 23 59)] ∧
  (_sync_request_data_series date_range_YS answer_all
     (date 2022 6 15) (date 2020 1 1) (__init__ "GHCND:USW00014739", [])).1.2 ≠ [].
Proof.
  split_and!.
  - by vm_compute.
  - vm_compute. reflexivity.
  - vm_compute. discriminate.
Qed.

(** ** Opening and closing the bar *)

(** C8, as the code has it: with progress reporting off, closing does
    nothing, so closing twice is closing once.  With progress reporting on,
    the first close removes the bar from the object and a second close raises
    [AttributeError], as does any close of an object without a bar. *)
Theorem _close_progress_twice (self : DataSource) :
  (progress self = false →
     _close_progress self = (self, inl tt) ∧
     (_close_progress;;; _close_progress) self = _close_progress self) ∧
  (progress self = true → is_Some (bar self) →
     _close_progress self =
       (mkDataSource (ID self) (URL self) true None, inl tt) ∧
     (_close_progress;;; _close_progress) self =
       (mkDataSource (ID self) (URL self) true None,
        inr (AttributeError "bar"))) ∧
  (progress self = true → bar self = None →
     _close_progress self = (self, inr (AttributeError "bar"))).
Proof.
  destruct self as [id url p b]. cbn [progress bar ID URL]. split_and!.
  - by intros ->.
  - by intros -> [b' ->].
  - by intros -> ->.
Qed.

Lemma _close_progress_twice_witness :
  progress (started 3 (__init__ "GHCND:USW00014739")) = true ∧
  is_Some (bar (started 3 (__init__ "GHCND:USW00014739"))) ∧
  (_close_progress;;; _close_progress) (started 3 (__init__ "GHCND:USW00014739")) =
    (__init__ "GHCND:USW00014739", inr (AttributeError "bar")).
Proof.
  split; [reflexivity|]. split; [by eexists|].
  apply (_close_progress_twice (started 3 (__init__ "GHCND:USW00014739")));
    [reflexivity|by eexists].
Defined.

(** Against C8 as stated: on an object that shows its progress, the second
    close fails and so is not the first close over again. *)
Lemma _close_progress_second_fails :
  (_close_progress (started 3 (__init__ "GHCND:USW00014739"))).2 = inl tt ∧
  (_close_progress
     (_close_progress (started 3 (__init__ "GHCND:USW00014739"))).1).2 =
    inr (AttributeError "bar") ∧
  (_close_progress;;; _close_progress) (started 3 (__init__ "GHCND:USW00014739")) ≠
    _close_progress (started 3 (__init__ "GHCND:USW00014739")).
Proof. split_and!; [reflexivity..|]. vm_compute. discriminate. Qed.

(** ** The concurrent loop *)

Section AsyncFacts.
Context {Payload : Type} (fetch : Interval → result Payload).
Context (D : list Timestamp) (N : nat).

Lemma task_states_lookup finished (i : nat) :
  i < N →
  task_states fetch D finished N !! i =
    Some (if bool_decide (i ∈ finished)
          then Finished (fetch (sub_interval D i)) else Pending).
Proof.
  intros Hi. unfold task_states.
  by rewrite list_lookup_fmap, lookup_seq_lt.
Qed.

Lemma task_states_length finished : length (task_states fetch D finished N) = N.
Proof. unfold task_states. by rewrite length_fmap, length_seq. Qed.

Lemma task_states_finish finished (i : nat) :
  i < N →
  <[i := Finished (fetch (sub_interval D i))]> (task_states fetch D finished N) =
    task_states fetch D (finished ++ [i]) N.
Proof.
  intros Hi. apply list_eq. intros j.
  destruct (decide (j < N)) as [Hj|Hj].
  - rewrite (task_states_lookup (finished ++ [i])) by done.
    destruct (decide (i = j)) as [->|Hne].
    + rewrite list_lookup_insert_eq by (by rewrite task_states_length).
      rewrite bool_decide_eq_true_2; [done|].
      apply elem_of_app. right. left.
    + rewrite list_lookup_insert_ne, task_states_lookup by done.
      f_equal. rewrite (bool_decide_ext (j ∈ finished ++ [i]) (j ∈ finished));
        [done|].
      rewrite elem_of_app, list_elem_of_singleton.
      split; [|by left]. intros [?|?]; [done|by subst].
  - rewrite !lookup_ge_None_2; [done|..].
    + rewrite task_states_length. lia.
    + rewrite length_insert, task_states_length. lia.
Qed.

Lemma create_tasks_states :
  N = length D - 1 → create_tasks D = task_states fetch D [] N.
Proof.
  intros ->. unfold create_tasks, task_states. apply list_fmap_ext.
  intros _ i _. rewrite bool_decide_eq_false_2; [done|]. apply not_elem_of_nil.
Qed.

Lemma done_callback_increment self :
  ready self → done_callback _increment_progress self = advance 1 self.
Proof.
  intros Hready. unfold done_callback. by rewrite _increment_progress_ready.
Qed.

(** One completion: the callback runs, the task is filed as finished, the
    loop goes on, and an exception of the task is what the coroutine gets. *)
Lemma gather_cons_pending (i : nat) sched self tasks :
  tasks !! i = Some Pending →
  gather fetch D (i :: sched) self tasks =
    ((gather fetch D sched (done_callback _increment_progress self)
        (<[i := Finished (fetch (sub_interval D i))]> tasks)).1,
     match fetch (sub_interval D i) with
     | inr e => Raised e
     | inl _ =>
         (gather fetch D sched (done_callback _increment_progress self)
            (<[i := Finished (fetch (sub_interval D i))]> tasks)).2
     end).
Proof.
  intros Hi. cbn [gather]. rewrite Hi.
  destruct (gather fetch D sched (done_callback _increment_progress self)
              (<[i := Finished (fetch (sub_interval D i))]> tasks))
    as [[self' tasks'] awaited].
  by destruct (fetch (sub_interval D i)).
Qed.

Lemma task_states_pending finished (i : nat) :
  i < N → i ∉ finished → task_states fetch D finished N !! i = Some Pending.
Proof.
  intros Hi Hnew. rewrite task_states_lookup by done.
  by rewrite bool_decide_eq_false_2.
Qed.

(** Completions that all succeed: the loop goes on with the rest. *)
Lemma gather_successes sched rest finished self :
  ready self →
  completion_order N sched →
  Forall (λ i, i ∉ finished) sched →
  Forall (λ i, ∃ p, fetch (sub_interval D i) = inl p) sched →
  gather fetch D (sched ++ rest) self (task_states fetch D finished N) =
    gather fetch D rest (advance (length sched) self)
      (task_states fetch D (finished ++ sched) N).
Proof.
  intros Hready [Hnd Hlt]. revert finished self Hready.
  induction sched as [|i sched IH]; intros finished self Hready Hnew Hok.
  - cbn. by rewrite advance_0, app_nil_r.
  - apply NoDup_cons in Hnd as [Hi Hnd].
    apply Forall_cons in Hlt as [HiN Hlt].
    apply Forall_cons in Hnew as [Hifresh Hnew].
    apply Forall_cons in Hok as [[p Hp] Hok].
    cbn [app]. rewrite gather_cons_pending by by apply task_states_pending.
    rewrite task_states_finish, done_callback_increment by done.
    rewrite IH; [|done|done|by apply advance_ready| |done].
    + rewrite Hp, advance_advance, <-app_assoc. cbn [length Nat.add app].
      symmetry. apply surjective_pairing.
    + apply Forall_forall. intros j Hj.
      rewrite elem_of_app, list_elem_of_singleton.
      rewrite Forall_forall in Hnew. specialize (Hnew j Hj).
      intros [?| ->]; done.
Qed.

(** Completions of any kind: each is counted and filed. *)
Lemma gather_state sched finished self :
  ready self →
  completion_order N sched →
  Forall (λ i, i ∉ finished) sched →
  (gather fetch D sched self (task_states fetch D finished N)).1 =
    (advance (length sched) self, task_states fetch D (finished ++ sched) N).
Proof.
  intros Hready [Hnd Hlt]. revert finished self Hready.
  induction sched as [|i sched IH]; intros finished self Hready Hnew.
  - cbn. by rewrite advance_0, app_nil_r.
  - apply NoDup_cons in Hnd as [Hi Hnd].
    apply Forall_cons in Hlt as [HiN Hlt].
    apply Forall_cons in Hnew as [Hifresh Hnew].
    rewrite gather_cons_pending by by apply task_states_pending.
    rewrite task_states_finish, done_callback_increment by done.
    cbn [fst]. rewrite IH; [|done|done|by apply advance_ready|].
    + by rewrite advance_advance, <-app_assoc.
    + apply Forall_forall. intros j Hj.
      rewrite elem_of_app, list_elem_of_singleton.
      rewrite Forall_forall in Hnew. specialize (Hnew j Hj).
      intros [?| ->]; done.
Qed.

Lemma results_task_states (finished : list nat) l ps :
  Forall (λ i, i ∈ finished) l →
  Forall2 (λ i p, fetch (sub_interval D i) = inl p) l ps →
  results ((λ i, if bool_decide (i ∈ finished)
                 then Finished (fetch (sub_interval D i)) else Pending) <$> l)
    = Some ps.
Proof.
  intros Hin Hall. induction Hall as [|i p l ps Hp Hall IH]; [done|].
  apply Forall_cons in Hin as [Hi Hin]. cbn.
  rewrite bool_decide_eq_true_2, Hp by done. by rewrite IH.
Qed.

Lemma results_task_states_pending (finished : list nat) l i :
  i ∈ l → i ∉ finished →
  results ((λ i, if bool_decide (i ∈ finished)
                 then Finished (fetch (sub_interval D i)) else Pending) <$> l)
    = None.
Proof.
  intros Hil Hi. induction l as [|j l IH]; [by apply elem_of_nil in Hil|].
  cbn. apply elem_of_cons in Hil as [<-|Hil].
  - by rewrite bool_decide_eq_false_2.
  - rewrite IH by done. case_bool_decide; [|done].
    by destruct (fetch (sub_interval D j)).
Qed.
End AsyncFacts.

Section GatherFacts.
Context {Payload : Type} (fetch : Interval → result Payload).
Context (D : list Timestamp) (N : nat).

Lemma successes_or_first_failure (l : list nat) :
  (∃ ps, Forall2 (λ i p, fetch (sub_interval D i) = inl p) l ps) ∨
  (∃ pre k post ps err,
     l = pre ++ k :: post ∧
     Forall2 (λ i p, fetch (sub_interval D i) = inl p) pre ps ∧
     fetch (sub_interval D k) = inr err).
Proof.
  induction l as [|i l IH].
  - left. exists []. constructor.
  - destruct (fetch (sub_interval D i)) as [p|err] eqn:Hi.
    + destruct IH as [[ps Hps]|(pre & k & post & ps & err & -> & Hps & Hk)].
      * left. exists (p :: ps). by constructor.
      * right. exists (i :: pre), k, post, (p :: ps), err.
        split_and!; [done| |done]. by constructor.
    + right. exists [], i, l, [], err. split_and!; [done| |done]. constructor.
Qed.

Lemma successes_each (l : list nat) ps :
  Forall2 (λ i p, fetch (sub_interval D i) = inl p) l ps →
  Forall (λ i, ∃ p, fetch (sub_interval D i) = inl p) l.
Proof. induction 1; constructor; eauto. Qed.

Lemma complete_completion_order sched :
  sched ≡ₚ seq 0 N → completion_order N sched.
Proof.
  intros Hperm. split.
  - rewrite Hperm. apply NoDup_seq.
  - apply Forall_forall. intros i Hi. rewrite Hperm in Hi.
    apply elem_of_seq in Hi. lia.
Qed.

Lemma completion_order_app_l sched rest :
  completion_order N (sched ++ rest) → completion_order N sched.
Proof.
  intros [Hnd Hlt]. split.
  - by apply NoDup_app in Hnd as (? & _ & _).
  - by apply Forall_app in Hlt as [? _].
Qed.

(** While the tasks that finish all succeed, [gather] keeps waiting, and
    returns when none is left. *)
Lemma gather_prefix sched self :
  ready self → completion_order N sched →
  Forall (λ i, ∃ p, fetch (sub_interval D i) = inl p) sched →
  gather fetch D sched self (task_states fetch D [] N) =
    (advance (length sched) self, task_states fetch D sched N,
     match results (task_states fetch D sched N) with
     | Some out => Returned out
     | None => Waiting
     end).
Proof.
  intros Hready Horder Hok.
  rewrite <-(app_nil_r sched) at 1.
  rewrite gather_successes; [done..| |done].
  apply Forall_forall. intros i _. apply not_elem_of_nil.
Qed.

Lemma gather_all_done sched ps self :
  ready self → sched ≡ₚ seq 0 N →
  Forall2 (λ i p, fetch (sub_interval D i) = inl p) (seq 0 N) ps →
  gather fetch D sched self (task_states fetch D [] N) =
    (advance N self, task_states fetch D sched N, Returned ps).
Proof.
  intros Hready Hperm Hps.
  rewrite gather_prefix; [|done|by apply complete_completion_order|].
  - assert (length sched = N) as Hlen
      by (rewrite (Permutation_length Hperm); apply length_seq).
    unfold task_states at 2. rewrite (results_task_states _ _ _ _ ps); [|..|done].
    + by rewrite Hlen.
    + apply Forall_forall. intros i Hi. by rewrite Hperm.
  - apply successes_each in Hps. rewrite Forall_forall in Hps.
    apply Forall_forall. intros i Hi. apply Hps. by rewrite <-Hperm.
Qed.

(** The first task seen to finish with an exception decides what the
    coroutine gets; every task of the order is counted and filed, the failing
    one and those after it included. *)
Lemma gather_first_failure pre k post err self :
  ready self → completion_order N (pre ++ k :: post) →
  Forall (λ i, ∃ p, fetch (sub_interval D i) = inl p) pre →
  fetch (sub_interval D k) = inr err →
  gather fetch D (pre ++ k :: post) self (task_states fetch D [] N) =
    (advance (length (pre ++ k :: post)) self,
     task_states fetch D (pre ++ k :: post) N, Raised err).
Proof.
  intros Hready Horder Hok Hk.
  assert ((gather fetch D (pre ++ k :: post) self
             (task_states fetch D [] N)).1 =
          (advance (length (pre ++ k :: post)) self,
           task_states fetch D (pre ++ k :: post) N)) as Hstate.
  { rewrite gather_state; [done..|].
    apply Forall_forall. intros i _. apply not_elem_of_nil. }
  assert ((gather fetch D (pre ++ k :: post) self
             (task_states fetch D [] N)).2 = Raised err) as Hawaited.
  { rewrite gather_successes;
      [|done|by eapply completion_order_app_l| |done].
    2: { apply Forall_forall. intros i _. apply not_elem_of_nil. }
    destruct Horder as [Hnd Hlt].
    apply NoDup_app in Hnd as (_ & Hdisj & _).
    apply Forall_app in Hlt as [_ [HkN _]%Forall_cons].
    rewrite gather_cons_pending.
    - by rewrite Hk.
    - apply task_states_pending; [done|].
      intros Hin. apply (Hdisj k Hin). left. }
  destruct (gather fetch D (pre ++ k :: post) self (task_states fetch D [] N))
    as [state awaited]. cbn in Hstate, Hawaited. by subst.
Qed.

Context (date_range : Timestamp → Timestamp → list Timestamp).

Lemma _async_request_data_series_unfold s e sched self :
  D = dRange date_range s e → N = length (plan date_range s e) →
  _async_request_data_series date_range fetch s e sched self =
    gather fetch D sched (started N self) (task_states fetch D [] N).
Proof.
  intros -> ->. unfold _async_request_data_series, plan.
  rewrite intervals_length.
  rewrite (create_tasks_states fetch _ (length (dRange date_range s e) - 1))
    by done.
  generalize (task_states fetch (dRange date_range s e) []
                (length (dRange date_range s e) - 1)).
  generalize (length (dRange date_range s e) - 1). intros n tasks.
  destruct self as [id url [] [b|]]; reflexivity.
Qed.
End GatherFacts.



(** ** The two loops compared *)

(** C2: when every task finishes, in whatever order, awaiting [gather] does
    not stay blocked, and it returns a list exactly when the sequential loop
    over the same plan returns that list; the list holds the answers to the
    sub-periods in the order of the plan. *)
Theorem gather_returns_the_sequential_list {Payload : Type}
    (date_range : Timestamp → Timestamp → list Timestamp)
    (fetch : Interval → result Payload) (s e : Timestamp)
    (self : DataSource) (sched : list nat) :
  sched ≡ₚ seq 0 (length (plan date_range s e)) →
  (_async_request_data_series date_range fetch s e sched self).2 ≠ Waiting ∧
  ∀ out,
    ((_async_request_data_series date_range fetch s e sched self).2 = Returned out
     ↔ (_sync_request_data_series date_range fetch s e (self, [])).2 = inl out) ∧
    ((_async_request_data_series date_range fetch s e sched self).2 = Returned out
     → Forall2 (λ iv p, fetch iv = inl p) (plan date_range s e) out).
Proof.
  intros Hperm.
  rewrite (_async_request_data_series_unfold fetch (dRange date_range s e)
             (length (plan date_range s e))) by done.
  rewrite _sync_request_data_series_unfold.
  set (D := dRange date_range s e) in *.
  set (N := length (plan date_range s e)) in *.
  assert (ready (started N self)) as Hready by apply started_spec.
  destruct (successes_or_first_failure fetch D (seq 0 N))
    as [[ps Hps]|(pre & k & post & ps & err & Hseq & Hps & Hk)].
  - rewrite (gather_all_done fetch D N sched ps) by done.
    rewrite (sync_loop_all_ok fetch D (seq 0 N) ps) by done.
    cbn [fst snd app]. split; [done|]. intros out. split.
    + split; by intros [= ->].
    + intros [= <-]. unfold plan, intervals. apply Forall2_fmap_l.
      fold D. replace (length D - 1) with N; [done|].
      unfold N, plan. by rewrite intervals_length.
  - rewrite Hseq, (sync_loop_first_failure fetch D pre k post ps err) by done.
    assert (k ∈ sched) as Hin.
    { rewrite Hperm, Hseq. apply elem_of_app. right. left. }
    destruct (successes_or_first_failure fetch D sched)
      as [[ps' Hps']|(pre' & k' & post' & ps' & err' & -> & Hps' & Hk')].
    + apply successes_each in Hps'. rewrite Forall_forall in Hps'.
      destruct (Hps' k Hin) as [p Hp]. congruence.
    + rewrite (gather_first_failure fetch D N pre' k' post' err'); [|done| |by eapply successes_each|done].
      * cbn [snd]. split; [done|]. intros out.
        split; [split; intros [=]|intros [=]].
      * by apply complete_completion_order.
Qed.

Lemma gather_returns_the_sequential_list_witness :
  [2; 0; 1] ≡ₚ seq 0 (length (plan date_range_YS (date 2020 1 1) (date 2022 6 15))) ∧
  (_async_request_data_series date_range_YS answer_all
     (date 2020 1 1) (date 2022 6 15) [2; 0; 1] (__init__ "GHCND:USW00014739")).2 =
    Returned
      [ mkInterval (date 2020 1 1) (at_time 2020 12 31 23 59);
        mkInterval (date 2021 1 1) (at_time 2021 12 31 23 59);
        mkInterval (date 2022 1 1) (at_time 2022 6 14 23 59) ].
Proof.
  assert ([2; 0; 1] ≡ₚ
          seq 0 (length (plan date_range_YS (date 2020 1 1) (date 2022 6 15))))
    as Hperm by apply (Permutation_cons_app [0; 1] [] 2 (reflexivity _)).
  split; [exact Hperm|].
  apply (gather_returns_the_sequential_list date_range_YS answer_all
           (date 2020 1 1) (date 2022 6 15) (__init__ "GHCND:USW00014739")
           [2; 0; 1] Hperm).
  vm_compute. reflexivity.
Defined.

(** ** A failing task in the concurrent loop *)

(** C3, as the code has it: in the concurrent mode the caller gets the
    exception of the first task to fail in the order of completion, whether
    or not the other tasks have finished by then: nothing waits for them.
    The exception is there as soon as that task has finished, with the tasks
    that have not finished still pending; the tasks that finish before the
    caller is resumed, after the failing one too, are finished; no list of
    results is returned. *)
Theorem gather_raises_at_first_failure {Payload : Type}
    (date_range : Timestamp → Timestamp → list Timestamp)
    (fetch : Interval → result Payload) (s e : Timestamp)
    (self : DataSource) (pre post : list nat) (k : nat) (err : Exn) :
  completion_order (length (plan date_range s e)) (pre ++ k :: post) →
  Forall (λ i, ∃ p, fetch (sub_interval (dRange date_range s e) i) = inl p) pre →
  fetch (sub_interval (dRange date_range s e) k) = inr err →
  (_async_request_data_series date_range fetch s e (pre ++ k :: post) self).2 =
    Raised err ∧
  (∀ j, j ∈ pre ++ k :: post →
     (_async_request_data_series date_range fetch s e (pre ++ k :: post) self).1.2
       !! j = Some (Finished (fetch (sub_interval (dRange date_range s e) j)))) ∧
  (_async_request_data_series date_range fetch s e (pre ++ [k]) self).2 =
    Raised err ∧
  (∀ j, j < length (plan date_range s e) → j ∉ pre ++ [k] →
     (_async_request_data_series date_range fetch s e (pre ++ [k]) self).1.2
       !! j = Some Pending).
Proof.
  intros Horder Hpre Hk.
  assert (completion_order (length (plan date_range s e)) (pre ++ [k] ++ []))
    as Hcut.
  { apply (completion_order_app_l _ _ post). by rewrite <-app_assoc. }
  rewrite !(_async_request_data_series_unfold fetch (dRange date_range s e)
              (length (plan date_range s e))) by done.
  rewrite (gather_first_failure fetch _ _ pre k post err);
    [|apply started_spec|done..].
  replace (pre ++ [k]) with (pre ++ k :: []) by done.
  rewrite (gather_first_failure fetch _ _ pre k [] err);
    [|apply started_spec|done..].
  cbn [fst snd]. split_and!; [done| |done|].
  - intros j Hj. destruct Horder as [_ Hlt]. rewrite Forall_forall in Hlt.
    rewrite task_states_lookup by by apply Hlt.
    by rewrite bool_decide_eq_true_2.
  - intros j Hj Hnew. by apply task_states_pending.
Qed.

Lemma gather_raises_at_first_failure_witness :
  completion_order
    (length (plan date_range_YS (date 2020 1 1) (date 2022 6 15))) ([2] ++ 0 :: [1]) ∧
  (_async_request_data_series date_range_YS (fail_at (date 2020 1 1))
     (date 2020 1 1) (date 2022 6 15) ([2] ++ 0 :: [1])
     (__init__ "GHCND:USW00014739")).2 = Raised (FetchError 503).
Proof.
  assert (completion_order
            (length (plan date_range_YS (date 2020 1 1) (date 2022 6 15)))
            ([2] ++ 0 :: [1])) as Horder.
  { split.
    - apply (bool_decide_unpack (NoDup [2; 0; 1])). vm_compute. exact I.
    - vm_compute. repeat constructor. }
  split; [exact Horder|].
  apply (gather_raises_at_first_failure date_range_YS (fail_at (date 2020 1 1))
           (date 2020 1 1) (date 2022 6 15) (__init__ "GHCND:USW00014739")
           [2] [1] 0 (FetchError 503) Horder).
  - constructor; [|constructor]. eexists. vm_compute. reflexivity.
  - vm_compute. reflexivity.
Defined.

(** Against C3 as stated: the first task fails while the two others have not
    finished; the failure is there for the caller, and the two other tasks
    are pending. *)
Lemma gather_does_not_wait :
  _async_request_data_series date_range_YS (fail_at (date 2020 1 1))
    (date 2020 1 1) (date 2022 6 15) [0] (__init__ "GHCND:USW00014739") =
  (mkDataSource "GHCND:USW00014739" "" true (Some (mkBar 3 1 "Downloading")),
   [Finished (inr (FetchError 503)); Pending; Pending],
   Raised (FetchError 503)).
Proof. vm_compute. reflexivity. Qed.

(** ** Counting the finished sub-periods *)




(** ** What the loops change on the object *)

Lemma advance_total k self : total <$> bar (advance k self) = total <$> bar self.
Proof. by destruct self as [id url [] [b|]]. Qed.

Lemma advance_identity k self : same_identity self (advance k self).
Proof. done. Qed.

Lemma started_total_kept N self b :
  bar self = Some b → total <$> bar (started N self) = Some (total b).
Proof. destruct self as [id url [] b']; cbn; by intros ->. Qed.

Lemma gather_frame {Payload : Type} (fetch : Interval → result Payload)
    D sched self tasks :
  ready self →
  ∃ k, (gather fetch D sched self tasks).1.1 = advance k self.
Proof.
  revert self tasks. induction sched as [|i sched IH]; intros self tasks Hready.
  - exists 0. cbn. by rewrite advance_0.
  - destruct (tasks !! i) as [[|r]|] eqn:Hi.
    + rewrite gather_cons_pending by done. cbn [fst].
      rewrite done_callback_increment by done.
      destruct (IH (advance 1 self)
                  (<[i:=Finished (fetch (sub_interval D i))]> tasks)) as [k Hk];
        [by apply advance_ready|].
      exists (1 + k). etrans; [exact Hk|apply advance_advance].
    + cbn [gather]. rewrite Hi. by apply IH.
    + cbn [gather]. rewrite Hi. by apply IH.
Qed.

Lemma _sync_request_data_series_frame {Payload : Type}
    date_range (fetch : Interval → result Payload) s e self ses :
  ∃ k, (_sync_request_data_series date_range fetch s e (self, ses)).1.1 =
       advance k (started (length (plan date_range s e)) self).
Proof.
  rewrite _sync_request_data_series_unfold.
  apply sync_loop_frame, started_spec.
Qed.

Lemma _async_request_data_series_frame {Payload : Type}
    date_range (fetch : Interval → result Payload) s e sched self :
  ∃ k, (_async_request_data_series date_range fetch s e sched self).1.1 =
       advance k (started (length (plan date_range s e)) self).
Proof.
  rewrite (_async_request_data_series_unfold fetch (dRange date_range s e)
             (length (plan date_range s e))) by done.
  apply gather_frame, started_spec.
Qed.

Lemma started_identity N self : same_identity self (started N self).
Proof. apply started_spec. Qed.

Lemma with_Session_state {A : Type} (body : M (DataSource * Session) A) self :
  (with_Session body self).1 = (body (self, [])).1.1.
Proof. unfold with_Session. by destruct (body (self, [])) as [[self' ses] r]. Qed.

Lemma with_Session_sync_identity {Payload : Type}
    date_range (fetch : Interval → result Payload) s e self :
  same_identity self
    (with_Session (_sync_request_data_series date_range fetch s e) self).1.
Proof.
  assert (∃ k,
    (with_Session (_sync_request_data_series date_range fetch s e) self).1 =
    advance k (started (length (plan date_range s e)) self)) as [k ->].
  { destruct (_sync_request_data_series_frame date_range fetch s e self [])
      as [k Hk].
    exists k. rewrite with_Session_state. exact Hk. }
  destruct (started_identity (length (plan date_range s e)) self) as [? ?].
  split; cbn; congruence.
Qed.

Lemma advance_off k self : progress self = false → advance k self = self.
Proof. destruct self as [id url p b]. cbn. by intros ->. Qed.

(** ** When the bar is created *)

(** C7, as the code has it: [_init_progress] creates a bar, with the
    number of sub-periods of the request's plan as its total and nothing
    counted, only when progress reporting is on and the object has no bar.
    When the object has a bar already, left there by an earlier request, the
    bar is kept as it is, with the total it had; when progress reporting is
    off no bar is created.  A second initialisation in a row changes
    nothing. *)
Theorem _init_progress_only_without_bar {Payload : Type}
    (date_range : Timestamp → Timestamp → list Timestamp)
    (fetch : Interval → result Payload) (s e : Timestamp)
    (sched : list nat) (N M : nat) (self : DataSource) :
  (progress self = true → bar self = None →
     _init_progress N self =
       (mkDataSource (ID self) (URL self) true (Some (mkBar N 0 "")), inl tt) ∧
     total <$> bar (_sync_request_data_series date_range fetch s e (self, [])).1.1 =
       Some (length (plan date_range s e)) ∧
     total <$> bar (_async_request_data_series date_range fetch s e sched self).1.1 =
       Some (length (plan date_range s e))) ∧
  (∀ b, bar self = Some b →
     _init_progress N self = (self, inl tt) ∧
     total <$> bar (_sync_request_data_series date_range fetch s e (self, [])).1.1 =
       Some (total b) ∧
     total <$> bar (_async_request_data_series date_range fetch s e sched self).1.1 =
       Some (total b)) ∧
  (progress self = false →
     _init_progress N self = (self, inl tt) ∧
     (_sync_request_data_series date_range fetch s e (self, [])).1.1 = self ∧
     (_async_request_data_series date_range fetch s e sched self).1.1 = self) ∧
  (_init_progress N;;; _init_progress M) self = _init_progress N self.
Proof.
  destruct (_sync_request_data_series_frame date_range fetch s e self [])
    as [k1 Hsync].
  destruct (_async_request_data_series_frame date_range fetch s e sched self)
    as [k2 Hasync].
  split_and!.
  - intros Hp Hb. split_and!; [by apply _init_progress_fresh|..].
    + etrans; [exact (f_equal (λ x, total <$> bar x) Hsync)|].
      by rewrite advance_total, started_fresh.
    + rewrite Hasync, advance_total. by rewrite started_fresh.
  - intros b Hb. split_and!.
    + apply _init_progress_kept. left. by rewrite Hb.
    + etrans; [exact (f_equal (λ x, total <$> bar x) Hsync)|].
      rewrite advance_total. by apply started_total_kept.
    + rewrite Hasync, advance_total. by apply started_total_kept.
  - intros Hp. split_and!.
    + apply _init_progress_kept. by right.
    + etrans; [exact Hsync|]. by rewrite started_off, advance_off.
    + by rewrite Hasync, started_off, advance_off.
  - by destruct self as [id url [] [b|]].
Qed.

Lemma _init_progress_only_without_bar_witness :
  bar (mkDataSource "GHCND:USW00014739" "" true (Some (mkBar 3 1 "Downloading"))) =
    Some (mkBar 3 1 "Downloading") ∧
  total <$> bar
    (_sync_request_data_series date_range_YS (fail_at (date 2021 1 1))
       (date 2020 3 1) (date 2020 6 15)
       (mkDataSource "GHCND:USW00014739" "" true (Some (mkBar 3 1 "Downloading")),
        [])).1.1 = Some 3.
Proof.
  split; [reflexivity|].
  destruct (_init_progress_only_without_bar date_range_YS
              (fail_at (date 2021 1 1)) (date 2020 3 1) (date 2020 6 15) [] 1 1
              (mkDataSource "GHCND:USW00014739" "" true
                 (Some (mkBar 3 1 "Downloading"))))
    as (_ & Hkept & _).
  destruct (Hkept (mkBar 3 1 "Downloading") eq_refl) as (_ & Hsync & _).
  exact Hsync.
Defined.

(** Against C7 as stated: a request over three years fails at its second
    sub-period, which leaves the bar on the object; a second request, whose
    plan has one sub-period, then runs with the bar of the first, total 3,
    and counts on from where the first stopped. *)
Lemma second_request_keeps_old_bar :
  bar (_sync_request_data_series date_range_YS (fail_at (date 2021 1 1))
         (date 2020 1 1) (date 2022 6 15) (__init__ "GHCND:USW00014739", [])).1.1 =
    Some (mkBar 3 1 "Downloading") ∧
  length (plan date_range_YS (date 2020 3 1) (date 2020 6 15)) = 1 ∧
  bar (_sync_request_data_series date_range_YS (fail_at (date 2021 1 1))
         (date 2020 3 1) (date 2020 6 15)
         ((_sync_request_data_series date_range_YS (fail_at (date 2021 1 1))
             (date 2020 1 1) (date 2022 6 15)
             (__init__ "GHCND:USW00014739", [])).1.1, [])).1.1 =
    Some (mkBar 3 2 "Downloading").
Proof. split_and!; vm_compute; reflexivity. Qed.

(** ** The frame of [request_dataframe] *)

Section EntryFacts.
Context {DataFrame Kwargs : Type}.
Context (_sync_request_dataframe _async_request_dataframe :
  Timestamp → Timestamp → bool → Kwargs → M DataSource DataFrame).

End EntryFacts.

(** * Further properties of the module *)

(** ** [flatten] *)

Lemma flatten_nil {A : Type} : flatten (A := A) [] = [].
Proof. reflexivity. Qed.

Lemma flatten_cons {A : Type} (sub : list A) t :
  flatten (sub :: t) = sub ++ flatten t.
Proof.
  unfold flatten. cbn. f_equal.
  induction sub as [|x sub IH]; [done|]. cbn. by rewrite IH.
Qed.

(** X1: [flatten] puts the items of the sublists one after the other, in
    the order of the sublists: it distributes over [++], drops empty
    sublists, and undoes the wrapping of every item in a list of its own. *)
Theorem flatten_in_order {A : Type} (t1 t2 : list (list A)) (l : list A) :
  flatten (t1 ++ t2) = flatten t1 ++ flatten t2 ∧
  flatten (t1 ++ [] :: t2) = flatten (t1 ++ t2) ∧
  flatten ((λ x, [x]) <$> l) = l.
Proof.
  assert (∀ u1 u2 : list (list A),
            flatten (u1 ++ u2) = flatten u1 ++ flatten u2) as Happ.
  { intros u1 u2. induction u1 as [|sub u1 IH]; [done|].
    cbn [app]. by rewrite !flatten_cons, IH, app_assoc. }
  split_and!.
  - apply Happ.
  - by rewrite !Happ, flatten_cons.
  - induction l as [|x l IH]; [done|].
    cbn [fmap list_fmap]. by rewrite flatten_cons, IH.
Qed.

(** X2: [flatten] loses and invents nothing: an item is in the result
    exactly when it is in one of the sublists, and the result is as long as
    the sublists together. *)
Theorem flatten_same_items {A : Type} (t : list (list A)) :
  (∀ x, x ∈ flatten t ↔ ∃ sub, sub ∈ t ∧ x ∈ sub) ∧
  length (flatten t) = sum_list (length <$> t).
Proof.
  split.
  - intros x. induction t as [|sub t IH].
    + rewrite flatten_nil. split; [by intros ?%elem_of_nil|].
      by intros (sub & ?%elem_of_nil & _).
    + rewrite flatten_cons, elem_of_app, IH. split.
      * intros [Hx|(sub' & Hsub' & Hx)].
        -- exists sub. split; [left|done].
        -- exists sub'. split; [by right|done].
      * intros (sub' & [->|Hsub']%elem_of_cons & Hx); [by left|].
        right. by exists sub'.
  - induction t as [|sub t IH]; [done|].
    rewrite flatten_cons, length_app, IH. done.
Qed.

(** ** The boundaries and the plan, further *)

Local Open Scope Z_scope.

Lemma StronglySorted_lt_NoDup l : StronglySorted Z.lt l → NoDup l.
Proof.
  induction 1 as [|x l Hs IH Hx]; constructor; [|done].
  intros Hin. rewrite Forall_forall in Hx. specialize (Hx x Hin). lia.
Qed.

Lemma bucket_of (l : list Timestamp) s e t :
  head l = Some s → last l = Some e → s ≤ t < e →
  ∃ (i : nat) b b', l !! i = Some b ∧ l !! (i + 1)%nat = Some b' ∧ b ≤ t < b'.
Proof.
  revert s. induction l as [|x l IH]; intros s Hhead Hlast Ht; [done|].
  cbn in Hhead. injection Hhead as ->.
  destruct l as [|y l].
  - cbn in Hlast. injection Hlast as ->. lia.
  - destruct (decide (t < y)) as [Hty|Hty].
    + exists 0%nat, s, y. split_and!; try done; lia.
    + destruct (IH y) as (i & b & b' & Hb & Hb' & Hbt);
        [done|by rewrite last_cons_cons in Hlast|lia|].
      exists (S i), b, b'. split_and!; try done; lia.
Qed.

Section PlanShape.
Context (date_range : Timestamp → Timestamp → list Timestamp).
Context `{!DateRange date_range}.

(** For a period given forwards the boundaries are the start, the anchors
    strictly inside the period, and the end. *)
Lemma dRange_forward s e :
  s < e →
  dRange date_range s e =
    s :: filter (λ x, s < x ∧ x < e) (date_range s e) ++ [e].
Proof.
  intros Hlt.
  pose proof (date_range_increasing s e) as Hdr.
  assert (∀ x, x ∈ date_range s e → s ≤ x ≤ e) as Hbounds
    by apply date_range_bounds.
  assert (StronglySorted Z.lt
            (s :: filter (λ x, s < x ∧ x < e) (date_range s e) ++ [e])) as HC.
  { constructor.
    - apply StronglySorted_app. split_and!.
      + intros x y [[_ Hx] _]%list_elem_of_filter ->%list_elem_of_singleton.
        done.
      + by apply StronglySorted_filter.
      + repeat constructor.
    - apply Forall_forall.
      intros x [[[Hx _] _]%list_elem_of_filter| ->%list_elem_of_singleton]%elem_of_app;
        done. }
  apply (StronglySorted_unique_strong Z.lt).
  - intros x1 x2 _ _ ? ?. lia.
  - apply dRange_increasing; [done|lia].
  - done.
  - apply NoDup_Permutation.
    + apply dRange_NoDup.
    + by apply StronglySorted_lt_NoDup.
    + intros x. rewrite elem_of_dRange, elem_of_cons, elem_of_app,
        list_elem_of_filter, list_elem_of_singleton.
      split; [|tauto].
      intros [->|[Hx| ->]]; [tauto| |tauto].
      specialize (Hbounds x Hx).
      destruct (decide (x = s)) as [->|?]; [tauto|].
      destruct (decide (x = e)) as [->|?]; [tauto|].
      right. left. split; [lia|done].
Qed.
End PlanShape.

(** X3: for a period given forwards, the boundaries are [start], the anchors
    of the frequency strictly inside the period, and [end], in this order;
    so the number of requests is one more than the number of anchors
    strictly inside the period. *)
Theorem plan_one_request_per_anchor
    (date_range : Timestamp → Timestamp → list Timestamp)
    `{!DateRange date_range} (s e : Timestamp) :
  s < e →
  dRange date_range s e =
    s :: filter (λ x, s < x ∧ x < e) (date_range s e) ++ [e] ∧
  length (plan date_range s e) =
    S (length (filter (λ x, s < x ∧ x < e) (date_range s e))).
Proof.
  intros Hlt. split; [by apply dRange_forward|].
  unfold plan. rewrite intervals_length, dRange_forward by done.
  cbn [length]. rewrite length_app. cbn [length]. lia.
Qed.

Lemma plan_one_request_per_anchor_witness :
  date 2020 1 1 < date 2022 6 15 ∧
  length (plan date_range_YS (date 2020 1 1) (date 2022 6 15)) =
    S (length (filter (λ x, date 2020 1 1 < x ∧ x < date 2022 6 15)
                 (date_range_YS (date 2020 1 1) (date 2022 6 15)))).
Proof.
  split; [by vm_compute|].
  apply (plan_one_request_per_anchor date_range_YS). by vm_compute.
Defined.

(** X4: whatever [pd.date_range] gives, the boundaries start with [start],
    hold [start], every anchor and [end] and nothing else, hold none of them
    twice, and so lead to at most one request more than there are anchors. *)
Theorem dRange_each_boundary_once
    (date_range : Timestamp → Timestamp → list Timestamp) (s e : Timestamp) :
  head (dRange date_range s e) = Some s ∧
  NoDup (dRange date_range s e) ∧
  (∀ x, x ∈ dRange date_range s e ↔ x = s ∨ x ∈ date_range s e ∨ x = e) ∧
  (length (plan date_range s e) ≤ length (date_range s e) + 1)%nat.
Proof.
  split_and!.
  - by destruct (dRange_head date_range s e) as [rest ->].
  - apply dRange_NoDup.
  - apply elem_of_dRange.
  - unfold plan. rewrite intervals_length, dRange_unfold.
    pose proof (sublist_length _ _
      (drop_duplicates_from_sublist [] (s :: date_range s e ++ [e]))) as Hlen.
    cbn [length] in Hlen. rewrite length_app in Hlen. cbn [length] in Hlen.
    unfold drop_duplicates. lia.
Qed.

(** X5: the sub-periods of a request with [start <= end] come in increasing
    order and do not overlap: a sub-period ends before any later one
    starts. *)
Theorem plan_sub_intervals_disjoint
    (date_range : Timestamp → Timestamp → list Timestamp)
    `{!DateRange date_range} (s e : Timestamp) (i j : nat) (a b : Interval) :
  s ≤ e → (i < j)%nat →
  plan date_range s e !! i = Some a →
  plan date_range s e !! j = Some b →
  iv_start a < iv_start b ∧ iv_end a < iv_start b.
Proof.
  intros Hle Hij Ha Hb.
  pose proof (dRange_increasing date_range s e Hle) as Hsorted.
  unfold plan in *.
  apply intervals_lookup_boundaries in Ha as (a1 & a2 & Ha1 & Ha2 & ->).
  apply intervals_lookup_boundaries in Hb as (b1 & b2 & Hb1 & Hb2 & ->).
  cbn [iv_start iv_end].
  assert (a1 < b1)
    by (eapply (StronglySorted_lt_lookup _ i j); done).
  assert (a2 ≤ b1).
  { destruct (decide (i + 1 = j)%nat) as [<-|Hne].
    - assert (Some a2 = Some b1) as [= ->]; [|done].
      etrans; [symmetry; exact Ha2|exact Hb1].
    - assert (a2 < b1); [|lia].
      eapply (StronglySorted_lt_lookup _ (i + 1) j); [done..|lia]. }
  unfold one_minute, ns_per_minute. lia.
Qed.

Lemma plan_sub_intervals_disjoint_witness :
  date 2020 1 1 ≤ date 2022 6 15 ∧ (0 < 2)%nat ∧
  iv_end (mkInterval (date 2020 1 1) (at_time 2020 12 31 23 59)) <
    iv_start (mkInterval (date 2022 1 1) (at_time 2022 6 14 23 59)).
Proof.
  split; [by vm_compute|]. split; [lia|].
  apply (plan_sub_intervals_disjoint date_range_YS
           (date 2020 1 1) (date 2022 6 15) 0 2).
  - by vm_compute.
  - lia.
  - vm_compute. reflexivity.
  - vm_compute. reflexivity.
Defined.

(** X6: the plan of a request with [start <= end] stays inside the period
    and leaves out nothing but the last minute of each sub-period: every
    sub-period starts at or after [start] and ends at least a minute before
    [end], and every instant from [start] up to [end] lies in a sub-period
    or in the minute that follows it. *)
Theorem plan_covers_period
    (date_range : Timestamp → Timestamp → list Timestamp)
    `{!DateRange date_range} (s e : Timestamp) :
  s ≤ e →
  (∀ iv, iv ∈ plan date_range s e →
     s ≤ iv_start iv ∧ iv_end iv + one_minute ≤ e) ∧
  (∀ t, s ≤ t < e →
     ∃ (i : nat) iv, plan date_range s e !! i = Some iv ∧
                     iv_start iv ≤ t < iv_end iv + one_minute).
Proof.
  intros Hle. split.
  - intros iv (j & b & b' & Hb & Hb' & ->)%elem_of_intervals.
    cbn [iv_start iv_end].
    apply list_elem_of_lookup_2, dRange_between in Hb; [|done..].
    apply list_elem_of_lookup_2, dRange_between in Hb'; [|done..]. lia.
  - intros t Ht.
    destruct (dRange_head date_range s e) as [rest Heq].
    destruct (bucket_of (dRange date_range s e) s e t)
      as (i & b & b' & Hb & Hb' & Hbt); [by rewrite Heq|by apply dRange_last|done|].
    exists i, (mkInterval b (b' - one_minute)). split.
    + unfold plan. apply intervals_lookup. split.
      * by apply lookup_lt_Some in Hb'.
      * symmetry. by apply sub_interval_lookup.
    + cbn [iv_start iv_end]. lia.
Qed.

Lemma plan_covers_period_witness :
  date 2020 1 1 ≤ date 2022 6 15 ∧
  date 2020 1 1 ≤ iv_start (mkInterval (date 2021 1 1) (at_time 2021 12 31 23 59)) ∧
  iv_end (mkInterval (date 2021 1 1) (at_time 2021 12 31 23 59)) + one_minute
    ≤ date 2022 6 15.
Proof.
  split; [by vm_compute|].
  apply (plan_covers_period date_range_YS (date 2020 1 1) (date 2022 6 15));
    [by vm_compute|].
  vm_compute. right. left.
Defined.

Local Close Scope Z_scope.

(** ** The sequential loop, further *)

Lemma plan_as_fmap date_range s e :
  plan date_range s e =
    sub_interval (dRange date_range s e) <$> seq 0 (length (plan date_range s e)).
Proof. unfold plan at 2. by rewrite intervals_length. Qed.

Lemma successes_of_plan {Payload : Type} (fetch : Interval → result Payload)
    date_range s e ps :
  Forall2 (λ iv p, fetch iv = inl p) (plan date_range s e) ps ↔
  Forall2 (λ i p, fetch (sub_interval (dRange date_range s e) i) = inl p)
    (seq 0 (length (plan date_range s e))) ps.
Proof. rewrite plan_as_fmap at 1. apply Forall2_fmap_l. Qed.

(** X7: the requests of the sequential loop follow the plan: whatever the
    service answers, the requests sent are the first sub-periods of the plan,
    in order and each once.  When the call returns, every sub-period was
    requested and the list returned holds their answers in plan order; when
    it raises, the exception is the one of the last request sent, and no
    later sub-period was requested. *)
Theorem sequential_requests_follow_plan {Payload : Type}
    (date_range : Timestamp → Timestamp → list Timestamp)
    (fetch : Interval → result Payload) (s e : Timestamp) (self : DataSource) :
  (∃ m, (_sync_request_data_series date_range fetch s e (self, [])).1.2 =
        take m (plan date_range s e)) ∧
  (∀ out,
     (_sync_request_data_series date_range fetch s e (self, [])).2 = inl out →
     (_sync_request_data_series date_range fetch s e (self, [])).1.2 =
       plan date_range s e ∧
     Forall2 (λ iv p, fetch iv = inl p) (plan date_range s e) out) ∧
  (∀ err,
     (_sync_request_data_series date_range fetch s e (self, [])).2 = inr err →
     ∃ iv, last (_sync_request_data_series date_range fetch s e (self, [])).1.2
             = Some iv ∧ fetch iv = inr err).
Proof.
  rewrite _sync_request_data_series_unfold.
  set (D := dRange date_range s e). set (N := length (plan date_range s e)).
  assert (plan date_range s e = sub_interval D <$> seq 0 N) as Hplan
    by apply plan_as_fmap.
  assert (ready (started N self)) as Hready by apply started_spec.
  destruct (successes_or_first_failure fetch D (seq 0 N))
    as [[ps Hps]|(pre & k & post & ps & err & Hseq & Hps & Hk)].
  - rewrite (sync_loop_all_ok fetch D (seq 0 N) ps) by done.
    cbn [fst snd app]. rewrite <-Hplan. split_and!.
    + exists N. by rewrite take_ge.
    + intros out [= <-]. split; [done|]. by apply successes_of_plan.
    + intros err [=].
  - rewrite Hplan, Hseq.
    rewrite (sync_loop_first_failure fetch D pre k post ps err) by done.
    cbn [fst snd app]. split_and!.
    + exists (length (sub_interval D <$> pre ++ [k])).
      replace (pre ++ k :: post) with ((pre ++ [k]) ++ post)
        by by rewrite <-app_assoc.
      by rewrite (fmap_app _ (pre ++ [k])), take_app_length.
    + intros out [=].
    + intros err' [= <-]. exists (sub_interval D k).
      split; [|done]. rewrite fmap_app. apply last_snoc.
Qed.




(** X9: a download that succeeds, followed by [_close_progress], leaves the
    object as it was: on an object that shows its progress and has no bar,
    the bar is created, counts every sub-period and is removed again, and the
    answers come back in plan order. *)
Theorem download_then_close_restores {Payload : Type}
    (date_range : Timestamp → Timestamp → list Timestamp)
    (fetch : Interval → result Payload) (s e : Timestamp)
    (self : DataSource) (ps : list Payload) :
  progress self = true → bar self = None →
  Forall2 (λ iv p, fetch iv = inl p) (plan date_range s e) ps →
  (data ⇐ with_Session (_sync_request_data_series date_range fetch s e);;
   _close_progress;;;
   ret data) self = (self, inl ps).
Proof.
  intros Hp Hb Hps. apply successes_of_plan in Hps.
  unfold bind at 1, with_Session.
  rewrite _sync_request_data_series_unfold.
  rewrite (sync_loop_all_ok fetch _ _ ps); [|apply started_spec|done].
  rewrite started_fresh by done. cbn [app].
  destruct self as [id url p b]. cbn in Hp, Hb. subst. reflexivity.
Qed.

Lemma download_then_close_restores_witness :
  progress (__init__ "GHCND:USW00014739") = true ∧
  bar (__init__ "GHCND:USW00014739") = None ∧
  (data ⇐ with_Session (_sync_request_data_series date_range_YS answer_all
                          (date 2020 1 1) (date 2022 6 15));;
   _close_progress;;;
   ret data) (__init__ "GHCND:USW00014739") =
    (__init__ "GHCND:USW00014739",
     inl (plan date_range_YS (date 2020 1 1) (date 2022 6 15))).
Proof.
  split; [reflexivity|]. split; [reflexivity|].
  apply (download_then_close_restores date_range_YS answer_all
           (date 2020 1 1) (date 2022 6 15) (__init__ "GHCND:USW00014739"));
    [reflexivity..|].
  apply Forall2_same_length_lookup. split; [done|].
  intros i iv p Hiv Hp. unfold answer_all. congruence.
Defined.

(** ** The bar and the tasks, further *)

Lemma finished_count_insert {A : Type} (tasks : list (Task A)) (i : nat) r :
  tasks !! i = Some Pending →
  finished_count (<[i := Finished r]> tasks) = S (finished_count tasks).
Proof.
  revert i. induction tasks as [|t tasks IH]; intros i Hi; [done|].
  destruct i as [|i]; cbn in Hi.
  - by injection Hi as ->.
  - cbn. destruct t; by rewrite IH.
Qed.

Lemma finished_count_le {A : Type} (tasks : list (Task A)) :
  finished_count tasks ≤ length tasks.
Proof. induction tasks as [|[|r] tasks IH]; cbn; lia. Qed.

Lemma finished_count_create_tasks {Payload : Type} D :
  finished_count (create_tasks (Payload := Payload) D) = 0.
Proof.
  unfold create_tasks. generalize (seq 0 (length D - 1)). intros l.
  by induction l.
Qed.

Lemma sync_loop_frame_le {Payload : Type} (fetch : Interval → result Payload)
    D idx data self ses :
  ready self →
  ∃ k, k ≤ length idx ∧
       (sync_loop fetch D idx data (self, ses)).1.1 = advance k self.
Proof.
  revert data self ses. induction idx as [|i idx IH]; intros data self ses Hready.
  - exists 0. split; [done|]. cbn. by rewrite advance_0.
  - rewrite sync_loop_cons by done.
    destruct (fetch (sub_interval D i)) as [p|err].
    + destruct (IH (data ++ [p]) (advance 1 self) (ses ++ [sub_interval D i]))
        as (k & Hle & Hk); [by apply advance_ready|].
      exists (1 + k). split; [cbn; lia|].
      etrans; [exact Hk|apply advance_advance].
    + exists 0. split; [lia|]. cbn. by rewrite advance_0.
Qed.

(** Each completion the event loop sees advances the bar by one and turns
    one pending task into a finished one. *)
Lemma gather_counts {Payload : Type} (fetch : Interval → result Payload)
    D sched self tasks :
  ready self →
  ∃ k, (gather fetch D sched self tasks).1.1 = advance k self ∧
       finished_count (gather fetch D sched self tasks).1.2 =
         finished_count tasks + k ∧
       length (gather fetch D sched self tasks).1.2 = length tasks.
Proof.
  revert self tasks. induction sched as [|i sched IH]; intros self tasks Hready.
  - exists 0. cbn. by rewrite advance_0, Nat.add_0_r.
  - destruct (tasks !! i) as [[|r]|] eqn:Hi.
    + rewrite gather_cons_pending by done. cbn [fst].
      rewrite done_callback_increment by done.
      destruct (IH (advance 1 self)
                  (<[i:=Finished (fetch (sub_interval D i))]> tasks))
        as (k & Hk & Hcount & Hlen); [by apply advance_ready|].
      exists (1 + k). split_and!.
      * etrans; [exact Hk|apply advance_advance].
      * rewrite Hcount, finished_count_insert by done. lia.
      * by rewrite Hlen, length_insert.
    + cbn [gather]. rewrite Hi. by apply IH.
    + cbn [gather]. rewrite Hi. by apply IH.
Qed.

Lemma _async_request_data_series_gather {Payload : Type}
    date_range (fetch : Interval → result Payload) s e sched self :
  _async_request_data_series date_range fetch s e sched self =
    gather fetch (dRange date_range s e) sched
      (started (length (plan date_range s e)) self)
      (create_tasks (dRange date_range s e)).
Proof.
  unfold _async_request_data_series, plan. rewrite intervals_length.
  generalize (create_tasks (Payload := Payload) (dRange date_range s e)).
  generalize (length (dRange date_range s e) - 1). intros n tasks.
  destruct self as [id url [] [b|]]; reflexivity.
Qed.

Lemma create_tasks_length {Payload : Type} date_range s e :
  length (create_tasks (Payload := Payload) (dRange date_range s e)) =
    length (plan date_range s e).
Proof.
  unfold create_tasks, plan.
  by rewrite length_fmap, length_seq, intervals_length.
Qed.

(** X10: from a bar created by the request, the count never passes the
    total.  On an object that shows its progress and has no bar, after the
    sequential call, and at every moment of the concurrent one, the bar is
    there, its total is the number of sub-periods of the plan, and its count
    is at most its total, whatever the service answered. *)
Theorem progress_never_overruns {Payload : Type}
    (date_range : Timestamp → Timestamp → list Timestamp)
    (fetch : Interval → result Payload) (s e : Timestamp)
    (sched : list nat) (self : DataSource) :
  progress self = true → bar self = None →
  (∃ b, bar (_sync_request_data_series date_range fetch s e (self, [])).1.1 =
          Some b ∧
        total b = length (plan date_range s e) ∧ n b ≤ total b) ∧
  (∃ b, bar (_async_request_data_series date_range fetch s e sched self).1.1 =
          Some b ∧
        total b = length (plan date_range s e) ∧ n b ≤ total b).
Proof.
  intros Hp Hb.
  set (N := length (plan date_range s e)).
  assert (ready (started N self)) as Hready by apply started_spec.
  assert (∀ k, k ≤ N →
    ∃ b, bar (advance k (started N self)) = Some b ∧ total b = N ∧ n b ≤ total b)
    as Hbar.
  { intros k Hk. rewrite started_fresh by done. eexists. cbn. split; [done|].
    cbn. lia. }
  split.
  - destruct (sync_loop_frame_le fetch (dRange date_range s e)
                (seq 0 N) [] (started N self) [] Hready) as (k & Hk & Heq).
    rewrite length_seq in Hk.
    assert ((_sync_request_data_series date_range fetch s e (self, [])).1.1 =
            advance k (started N self)) as ->; [|by apply Hbar].
    rewrite _sync_request_data_series_unfold. exact Heq.
  - rewrite _async_request_data_series_gather.
    destruct (gather_counts fetch (dRange date_range s e) sched
                (started N self) (create_tasks (dRange date_range s e)) Hready)
      as (k & Hk & Hcount & Hlen).
    pose proof (finished_count_le
      (gather fetch (dRange date_range s e) sched (started N self)
         (create_tasks (dRange date_range s e))).1.2) as Hle.
    rewrite Hcount, Hlen, finished_count_create_tasks, create_tasks_length in Hle.
    destruct (Hbar k Hle) as (b & Hb1 & Hb2 & Hb3).
    exists b. split_and!; [|done..].
    etrans; [exact (f_equal bar Hk)|exact Hb1].
Qed.

Lemma progress_never_overruns_witness :
  progress (__init__ "GHCND:USW00014739") = true ∧
  bar (__init__ "GHCND:USW00014739") = None ∧
  ∃ b, bar (_async_request_data_series date_range_YS (fail_at (date 2021 1 1))
              (date 2020 1 1) (date 2022 6 15) [2; 1; 0]
              (__init__ "GHCND:USW00014739")).1.1 = Some b ∧
       total b = length (plan date_range_YS (date 2020 1 1) (date 2022 6 15)) ∧
       n b ≤ total b.
Proof.
  split; [reflexivity|]. split; [reflexivity|].
  apply (progress_never_overruns date_range_YS (fail_at (date 2021 1 1))
           (date 2020 1 1) (date 2022 6 15) [2; 1; 0]
           (__init__ "GHCND:USW00014739") eq_refl eq_refl).
Defined.

Section GatherFiling.
Context {Payload : Type} (fetch : Interval → result Payload).
Context (D : list Timestamp).

Lemma filed_insert tasks (i : nat) :
  filed fetch D tasks →
  filed fetch D (<[i := Finished (fetch (sub_interval D i))]> tasks).
Proof.
  intros Hfiled j t Hj. destruct (decide (i = j)) as [->|Hne].
  - apply list_lookup_insert_Some in Hj as [(_ & <- & _)|[? _]]; [by right|done].
  - rewrite list_lookup_insert_ne in Hj by done. by apply Hfiled.
Qed.

Lemma gather_filed sched self tasks :
  filed fetch D tasks →
  filed fetch D (gather fetch D sched self tasks).1.2 ∧
  (∀ err, (gather fetch D sched self tasks).2 = Raised err →
     ∃ j : nat, j < length tasks ∧ fetch (sub_interval D j) = inr err) ∧
  (∀ out, (gather fetch D sched self tasks).2 = Returned out →
     results (gather fetch D sched self tasks).1.2 = Some out).
Proof.
  revert self tasks. induction sched as [|i sched IH]; intros self tasks Hfiled.
  - cbn. split_and!; [done|..].
    + intros err. by destruct (results tasks).
    + intros out. destruct (results tasks); [|done]. by intros [= ->].
  - destruct (tasks !! i) as [[|r]|] eqn:Hi.
    + rewrite gather_cons_pending by done. cbn [fst snd].
      destruct (IH (done_callback _increment_progress self)
                  (<[i:=Finished (fetch (sub_interval D i))]> tasks))
        as (IH1 & IH2 & IH3); [by apply filed_insert|].
      split_and!; [done|..].
      * intros err.
        destruct (fetch (sub_interval D i)) as [p|err'] eqn:Hfetch.
        -- intros Herr. destruct (IH2 err Herr) as (j & Hj & Hjerr).
           exists j. by rewrite length_insert in Hj.
        -- intros [= <-]. exists i. split; [|done].
           by apply lookup_lt_Some in Hi.
      * intros out.
        destruct (fetch (sub_interval D i)) as [p|err'] eqn:Hfetch; [|done].
        apply IH3.
    + cbn [gather]. rewrite Hi. by apply IH.
    + cbn [gather]. rewrite Hi. by apply IH.
Qed.

Lemma results_filed (k : nat) tasks out :
  (∀ (j : nat) t, tasks !! j = Some t →
     t = Pending ∨ t = Finished (fetch (sub_interval D (k + j)))) →
  results tasks = Some out →
  Forall2 (λ i p, fetch (sub_interval D i) = inl p) (seq k (length tasks)) out.
Proof.
  revert k out. induction tasks as [|t tasks IH]; intros k out Hfiled Hres.
  - cbn in Hres. injection Hres as <-. constructor.
  - cbn in Hres. destruct t as [|[p|err]]; [done| |done].
    destruct (results tasks) as [out'|] eqn:Hout'; [|done].
    cbn in Hres. injection Hres as <-. cbn [length seq]. constructor.
    + destruct (Hfiled 0 (Finished (inl p)) eq_refl) as [?|Heq]; [done|].
      rewrite Nat.add_0_r in Heq. by injection Heq.
    + apply IH; [|done]. intros j t Hj.
      replace (S k + j) with (k + S j) by lia. by apply Hfiled.
Qed.
End GatherFiling.

Lemma create_tasks_filed {Payload : Type} (fetch : Interval → result Payload) D :
  filed fetch D (create_tasks D).
Proof.
  intros j t Hj. unfold create_tasks in Hj.
  rewrite list_lookup_fmap in Hj.
  apply fmap_Some in Hj as (i & _ & ->). by left.
Qed.

(** X12: in the concurrent mode an answer is kept under the index of its
    task and nowhere else.  Whatever the order of completion (entries that
    repeat or name no task included) and whatever the service answers: a
    finished task holds the answer to the sub-period at its own place in the
    plan; a list that is returned holds the answers to the sub-periods in
    plan order; an exception that is raised is the answer to one of the
    sub-periods of the plan. *)
Theorem tasks_keep_their_own_answers {Payload : Type}
    (date_range : Timestamp → Timestamp → list Timestamp)
    (fetch : Interval → result Payload) (s e : Timestamp)
    (sched : list nat) (self : DataSource) :
  (∀ (j : nat) r,
     (_async_request_data_series date_range fetch s e sched self).1.2 !! j =
       Some (Finished r) →
     ∃ iv, plan date_range s e !! j = Some iv ∧ r = fetch iv) ∧
  (∀ out,
     (_async_request_data_series date_range fetch s e sched self).2 =
       Returned out →
     Forall2 (λ iv p, fetch iv = inl p) (plan date_range s e) out) ∧
  (∀ err,
     (_async_request_data_series date_range fetch s e sched self).2 =
       Raised err →
     ∃ iv, iv ∈ plan date_range s e ∧ fetch iv = inr err).
Proof.
  rewrite _async_request_data_series_gather.
  pose proof (create_tasks_length (Payload := Payload) date_range s e) as Hct.
  remember (dRange date_range s e) as D eqn:HD.
  remember (length (plan date_range s e)) as N eqn:HN.
  destruct (gather_filed fetch D sched (started N self) (create_tasks D)
              (create_tasks_filed fetch D)) as (Hfiled & Hraised & Hreturned).
  destruct (gather_counts fetch D sched (started N self) (create_tasks D))
    as (k & _ & _ & Hlen); [apply started_spec|].
  rewrite Hct in Hlen, Hraised.
  assert (∀ j : nat, j < N → plan date_range s e !! j = Some (sub_interval D j))
    as Hplan.
  { intros j Hj. unfold plan. rewrite <-HD. apply intervals_lookup.
    split; [|done].
    rewrite HN in Hj. unfold plan in Hj.
    rewrite intervals_length, <-HD in Hj. lia. }
  assert (Forall2 (λ iv p, fetch iv = inl p) (plan date_range s e)
          = Forall2 (λ iv p, fetch iv = inl p) (sub_interval D <$> seq 0 N))
    as Hplan_eq.
  { f_equal. rewrite HD, HN. apply plan_as_fmap. }
  split_and!.
  - intros j r Hj. exists (sub_interval D j). split.
    + apply Hplan. apply lookup_lt_Some in Hj. by rewrite Hlen in Hj.
    + destruct (Hfiled j _ Hj) as [?|Heq]; [done|]. by injection Heq.
  - intros out Hout. rewrite Hplan_eq. apply Forall2_fmap_l.
    rewrite <-Hlen. apply (results_filed fetch D 0); [|by apply Hreturned].
    intros j t Hj. by apply Hfiled.
  - intros err Herr. destruct (Hraised err Herr) as (j & Hj & Hjerr).
    exists (sub_interval D j). split; [|done].
    eapply list_elem_of_lookup_2, Hplan. done.
Qed.

(** X13: the concurrent call returns no list while a task is unfinished.
    When the tasks that have finished all succeeded and some task has not
    finished, the awaiting coroutine is still waiting and that task is still
    pending: no partial list is returned. *)
Theorem gather_waits_for_unfinished_task {Payload : Type}
    (date_range : Timestamp → Timestamp → list Timestamp)
    (fetch : Interval → result Payload) (s e : Timestamp)
    (sched : list nat) (i : nat) (self : DataSource) :
  completion_order (length (plan date_range s e)) sched →
  Forall (λ j, ∃ p, fetch (sub_interval (dRange date_range s e) j) = inl p)
    sched →
  i < length (plan date_range s e) → i ∉ sched →
  (_async_request_data_series date_range fetch s e sched self).2 = Waiting ∧
  (_async_request_data_series date_range fetch s e sched self).1.2 !! i =
    Some Pending.
Proof.
  intros Horder Hok Hi Hnotin.
  rewrite (_async_request_data_series_unfold fetch (dRange date_range s e)
             (length (plan date_range s e))) by done.
  rewrite gather_prefix; [|apply started_spec|done..].
  cbn [fst snd]. split.
  - unfold task_states.
    rewrite (results_task_states_pending fetch _ sched _ i); [done| |done].
    apply elem_of_seq. lia.
  - rewrite task_states_lookup by done. by rewrite bool_decide_eq_false_2.
Qed.

Lemma gather_waits_for_unfinished_task_witness :
  completion_order
    (length (plan date_range_YS (date 2020 1 1) (date 2022 6 15))) [2; 0] ∧
  1 < length (plan date_range_YS (date 2020 1 1) (date 2022 6 15)) ∧
  (_async_request_data_series date_range_YS answer_all
     (date 2020 1 1) (date 2022 6 15) [2; 0]
     (__init__ "GHCND:USW00014739")).2 = Waiting.
Proof.
  assert (completion_order
            (length (plan date_range_YS (date 2020 1 1) (date 2022 6 15)))
            [2; 0]) as Horder.
  { split.
    - apply (bool_decide_unpack (NoDup [2; 0])). vm_compute. exact I.
    - vm_compute. repeat constructor. }
  assert (1 < length (plan date_range_YS (date 2020 1 1) (date 2022 6 15)))
    as Hlt by (vm_compute; lia).
  split; [exact Horder|]. split; [exact Hlt|].
  apply (gather_waits_for_unfinished_task date_range_YS answer_all
           (date 2020 1 1) (date 2022 6 15) [2; 0] 1
           (__init__ "GHCND:USW00014739") Horder).
  - repeat constructor; by eexists.
  - exact Hlt.
  - apply (bool_decide_unpack (1 ∉ [2; 0])). vm_compute. exact I.
Defined.

(** ** The bar between two requests *)

(** X14: once closed, the bar has to be created anew.  On an object that
    shows its progress and has a bar, closing and then initialising gives a
    new bar with the new total and nothing counted, whatever the old bar
    showed; closing and then advancing or labelling the bar raises
    [AttributeError] and leaves the object without a bar. *)
Theorem close_then_init_gives_new_bar (N : nat) (d : string)
    (self : DataSource) :
  progress self = true → is_Some (bar self) →
  (_close_progress;;; _init_progress N) self =
    (mkDataSource (ID self) (URL self) true (Some (mkBar N 0 "")), inl tt) ∧
  (_close_progress;;; _increment_progress) self =
    (mkDataSource (ID self) (URL self) true None, inr (AttributeError "bar")) ∧
  (_close_progress;;; _update_progress_description d) self =
    (mkDataSource (ID self) (URL self) true None, inr (AttributeError "bar")).
Proof.
  destruct self as [id url p b]. cbn [progress bar ID URL].
  by intros -> [b' ->].
Qed.

Lemma close_then_init_gives_new_bar_witness :
  progress (mkDataSource "GHCND:USW00014739" "" true
              (Some (mkBar 3 1 "Downloading"))) = true ∧
  is_Some (bar (mkDataSource "GHCND:USW00014739" "" true
                  (Some (mkBar 3 1 "Downloading")))) ∧
  (_close_progress;;; _init_progress 1)
    (mkDataSource "GHCND:USW00014739" "" true (Some (mkBar 3 1 "Downloading"))) =
    (mkDataSource "GHCND:USW00014739" "" true (Some (mkBar 1 0 "")), inl tt).
Proof.
  split; [reflexivity|]. split; [by eexists|].
  apply (close_then_init_gives_new_bar 1 ""
           (mkDataSource "GHCND:USW00014739" "" true
              (Some (mkBar 3 1 "Downloading"))));
    [reflexivity|by eexists].
Defined.

(** ** What a call changes on the object *)




